(** * NexaAi-Studio: the live voice assistant

    A shallow embedding of [src/components/VoiceAssistant.tsx]: the React
    component that owns a live voice session, schedules the model's audio
    for gapless playback, accumulates the transcript and tears everything
    down again; and of [handleUpdateVoiceChat] of [App], in
    [src/types.ts], the function of the parent that the component reports
    its transcript to.

    Conventions of the embedding.
    - A JS string is a [string] whose characters are code units below 256.
    - Playback times ([AudioContext.currentTime], the [when] of
      [source.start], [AudioBuffer.duration]) are counted in output frames
      of 1/24000 s: the output context and every decoded buffer are created
      at 24000 Hz, so all three are whole numbers of frames.
    - Every browser object lives in one store, addressed by an id; a React
      ref holds an id or [None] for [null].
    - React state setters are applied at once. A handler never reads the
      state it has just set: what it reads is the constant its closure
      captured at render time, which the embedding keeps in a [Closure].
    - The component is driven by events (a click, the settling of
      [getUserMedia], the callbacks of a session, the end of a source, the
      unmounting), each handled to its end before the next. The one
      function with an [await] on something outside the component,
      [startConversation], is split at that [await].
    - [context.close()] makes [context.state] read ['closed'] from the
      call on, as the Web Audio API has it; [session.close()], which the
      code defers to the settling of the connection promise, is recorded
      as requested at the call. *)

From Stdlib Require Import NArith String Ascii List Lia.
From stdpp Require Import gmap strings list.

Local Open Scope N_scope.
Local Open Scope string_scope.

(** ** Types of the component *)

(** [type ConnectionState = 'idle' | 'connecting' | 'connected' | 'error' | 'closed'] *)
Inductive ConnectionState : Set :=
  | idle | connecting | connected | error | closed.

(** [type VoiceStatus = 'Idle' | 'Listening' | 'Speaking' | 'Connecting...'] *)
Inductive VoiceStatus : Set :=
  | Idle | Listening | Speaking | Connecting.

(** [interface TranscriptTurn { user: string; model: string }] *)
Record TranscriptTurn : Set := { user : string; model : string }.

#[export] Instance ConnectionState_eq_dec : EqDecision ConnectionState.
Proof. solve_decision. Defined.

#[export] Instance VoiceStatus_eq_dec : EqDecision VoiceStatus.
Proof. solve_decision. Defined.

#[export] Instance TranscriptTurn_eq_dec : EqDecision TranscriptTurn.
Proof. solve_decision. Defined.

(** What a render of the component binds as constants and every function
    created during that render closes over. *)
Record Closure : Set := {
  cl_connectionState : ConnectionState;
  cl_currentInputTranscription : string;
  cl_currentOutputTranscription : string;
  cl_history : list TranscriptTurn
}.

(** A value caught by [catch (err: unknown)]. *)
Inductive Thrown : Set :=
  | ErrorObject (name message : string)   (* err instanceof Error *)
  | OtherValue.                           (* anything else *)

(** The fields of a [LiveServerMessage] the handler reads.
    [modelTurn] is [message.serverContent?.modelTurn]: absent, or present
    with its [parts] absent ([Some None]) or given, each part reduced to
    its [inlineData?.data]. *)
Record LiveServerMessage : Set := {
  modelTurn : option (option (list (option string)));
  (* message.serverContent?.inputTranscription, with its text *)
  inputTranscription : option string;
  (* message.serverContent?.outputTranscription, with its text *)
  outputTranscription : option string;
  turnComplete : bool;
  interrupted : bool
}.

(** ** Strings *)

Module JsString.

(** The white space and line terminators of [String.prototype.trim] among
    the code units below 256. *)
Definition isWhiteSpace (c : ascii) : bool :=
  let n := N_of_ascii c in
  N.eqb n 9 || N.eqb n 10 || N.eqb n 11 || N.eqb n 12 || N.eqb n 13
  || N.eqb n 32 || N.eqb n 160.

Fixpoint trimStart (s : string) : string :=
  match s with
  | String c s' => if isWhiteSpace c then trimStart s' else s
  | EmptyString => EmptyString
  end.

Fixpoint trimEnd (s : string) : string :=
  match s with
  | String c s' =>
      match trimEnd s' with
      | EmptyString => if isWhiteSpace c then EmptyString else String c EmptyString
      | t => String c t
      end
  | EmptyString => EmptyString
  end.

(** [s.trim()] *)
Definition trim (s : string) : string := trimEnd (trimStart s).

(** A string in a condition: only the empty string is falsy. *)
Definition truthy (s : string) : bool :=
  match s with EmptyString => false | String _ _ => true end.

(** [s.includes(sub)] *)
Definition includes (s sub : string) : bool :=
  match String.index 0 sub s with Some _ => true | None => false end.

(** Some character of [s] is not white space. *)
Fixpoint hasInk (s : string) : bool :=
  match s with
  | String c s' => negb (isWhiteSpace c) || hasInk s'
  | EmptyString => false
  end.

End JsString.

(** ** The browser's objects *)

(** [AudioContext.state] *)
Inductive AudioContextState : Set :=
  | ctx_suspended | ctx_running | ctx_closed.

#[export] Instance AudioContextState_eq_dec : EqDecision AudioContextState.
Proof. solve_decision. Defined.

(** The objects the component creates or is handed, with the part of their
    state the component can change or observe. *)
Inductive BrowserObject : Type :=
  (* the stream of getUserMedia; [live] until its tracks are stopped *)
  | MediaStream (live : bool)
  | AudioContext (contextState : AudioContextState) (sampleRate : N)
  (* createMediaStreamSource(stream) *)
  | MediaStreamAudioSourceNode (stream : N) (connected : bool)
  (* createScriptProcessor(4096, 1, 1) *)
  | ScriptProcessorNode (connected : bool)
  (* createBufferSource(), started at [when] with a buffer of [duration] frames *)
  | AudioBufferSourceNode (when duration : N) (stopped : bool)
  (* the session of ai.live.connect; its callbacks close over [env] *)
  | LiveSession (env : Closure) (closeRequested : bool).

(** The release calls of the teardown, logged in the order they are made. *)
Inductive Call : Set :=
  | SessionClose (session : N)
  | TrackStop (stream : N)
  | Disconnect (node : N)
  | ContextClose (context : N).

(** ** The component's world *)

(** The [useState] variables. [errorText] is the variable [error]. *)
Record ReactState : Set := {
  connectionState : ConnectionState;
  voiceStatus : VoiceStatus;
  errorText : option string;
  currentInputTranscription : string;
  currentOutputTranscription : string
}.

(** The [useRef] cells; [None] is [null]. *)
Record Refs : Type := {
  sessionPromiseRef : option N;
  streamRef : option N;
  inputAudioContextRef : option N;
  outputAudioContextRef : option N;
  scriptProcessorRef : option N;
  mediaStreamSourceRef : option N;
  nextStartTimeRef : N;
  sourcesRef : gset N
}.

Record Browser : Type := {
  objects : gmap N BrowserObject;
  nextId : N;
  calls : list Call
}.

(** [history] is the prop: the parent's transcript list, which
    [onHistoryUpdate] replaces. [awaitingMicrophone] holds the calls of
    [startConversation] suspended at [await getUserMedia], each with the
    closure of the render it was called from. *)
Record World : Type := {
  state : ReactState;
  refs : Refs;
  browser : Browser;
  history : list TranscriptTurn;
  awaitingMicrophone : list Closure
}.

Definition onState (f : ReactState -> ReactState) (w : World) : World :=
  {| state := f (state w); refs := refs w; browser := browser w;
     history := history w; awaitingMicrophone := awaitingMicrophone w |}.

Definition onRefs (f : Refs -> Refs) (w : World) : World :=
  {| state := state w; refs := f (refs w); browser := browser w;
     history := history w; awaitingMicrophone := awaitingMicrophone w |}.

Definition onBrowser (f : Browser -> Browser) (w : World) : World :=
  {| state := state w; refs := refs w; browser := f (browser w);
     history := history w; awaitingMicrophone := awaitingMicrophone w |}.

Definition set_history (v : list TranscriptTurn) (w : World) : World :=
  {| state := state w; refs := refs w; browser := browser w;
     history := v; awaitingMicrophone := awaitingMicrophone w |}.

Definition set_awaitingMicrophone (v : list Closure) (w : World) : World :=
  {| state := state w; refs := refs w; browser := browser w;
     history := history w; awaitingMicrophone := v |}.


(** The state setters. *)

Definition setConnectionState (v : ConnectionState) : World -> World :=
  onState (fun s =>
    {| connectionState := v; voiceStatus := voiceStatus s;
       errorText := errorText s;
       currentInputTranscription := currentInputTranscription s;
       currentOutputTranscription := currentOutputTranscription s |}).

Definition setVoiceStatus (v : VoiceStatus) : World -> World :=
  onState (fun s =>
    {| connectionState := connectionState s; voiceStatus := v;
       errorText := errorText s;
       currentInputTranscription := currentInputTranscription s;
       currentOutputTranscription := currentOutputTranscription s |}).

Definition setError (v : option string) : World -> World :=
  onState (fun s =>
    {| connectionState := connectionState s; voiceStatus := voiceStatus s;
       errorText := v;
       currentInputTranscription := currentInputTranscription s;
       currentOutputTranscription := currentOutputTranscription s |}).

Definition setCurrentInputTranscription (v : string) : World -> World :=
  onState (fun s =>
    {| connectionState := connectionState s; voiceStatus := voiceStatus s;
       errorText := errorText s; currentInputTranscription := v;
       currentOutputTranscription := currentOutputTranscription s |}).

Definition setCurrentOutputTranscription (v : string) : World -> World :=
  onState (fun s =>
    {| connectionState := connectionState s; voiceStatus := voiceStatus s;
       errorText := errorText s;
       currentInputTranscription := currentInputTranscription s;
       currentOutputTranscription := v |}).


(** Assignments to the [current] of a ref. *)

Definition set_sessionPromiseRef (v : option N) : World -> World :=
  onRefs (fun r =>
    {| sessionPromiseRef := v; streamRef := streamRef r;
       inputAudioContextRef := inputAudioContextRef r;
       outputAudioContextRef := outputAudioContextRef r;
       scriptProcessorRef := scriptProcessorRef r;
       mediaStreamSourceRef := mediaStreamSourceRef r;
       nextStartTimeRef := nextStartTimeRef r; sourcesRef := sourcesRef r |}).

Definition set_streamRef (v : option N) : World -> World :=
  onRefs (fun r =>
    {| sessionPromiseRef := sessionPromiseRef r; streamRef := v;
       inputAudioContextRef := inputAudioContextRef r;
       outputAudioContextRef := outputAudioContextRef r;
       scriptProcessorRef := scriptProcessorRef r;
       mediaStreamSourceRef := mediaStreamSourceRef r;
       nextStartTimeRef := nextStartTimeRef r; sourcesRef := sourcesRef r |}).

Definition set_inputAudioContextRef (v : option N) : World -> World :=
  onRefs (fun r =>
    {| sessionPromiseRef := sessionPromiseRef r; streamRef := streamRef r;
       inputAudioContextRef := v;
       outputAudioContextRef := outputAudioContextRef r;
       scriptProcessorRef := scriptProcessorRef r;
       mediaStreamSourceRef := mediaStreamSourceRef r;
       nextStartTimeRef := nextStartTimeRef r; sourcesRef := sourcesRef r |}).

Definition set_outputAudioContextRef (v : option N) : World -> World :=
  onRefs (fun r =>
    {| sessionPromiseRef := sessionPromiseRef r; streamRef := streamRef r;
       inputAudioContextRef := inputAudioContextRef r;
       outputAudioContextRef := v;
       scriptProcessorRef := scriptProcessorRef r;
       mediaStreamSourceRef := mediaStreamSourceRef r;
       nextStartTimeRef := nextStartTimeRef r; sourcesRef := sourcesRef r |}).

Definition set_scriptProcessorRef (v : option N) : World -> World :=
  onRefs (fun r =>
    {| sessionPromiseRef := sessionPromiseRef r; streamRef := streamRef r;
       inputAudioContextRef := inputAudioContextRef r;
       outputAudioContextRef := outputAudioContextRef r;
       scriptProcessorRef := v;
       mediaStreamSourceRef := mediaStreamSourceRef r;
       nextStartTimeRef := nextStartTimeRef r; sourcesRef := sourcesRef r |}).

Definition set_mediaStreamSourceRef (v : option N) : World -> World :=
  onRefs (fun r =>
    {| sessionPromiseRef := sessionPromiseRef r; streamRef := streamRef r;
       inputAudioContextRef := inputAudioContextRef r;
       outputAudioContextRef := outputAudioContextRef r;
       scriptProcessorRef := scriptProcessorRef r; mediaStreamSourceRef := v;
       nextStartTimeRef := nextStartTimeRef r; sourcesRef := sourcesRef r |}).

Definition set_nextStartTimeRef (v : N) : World -> World :=
  onRefs (fun r =>
    {| sessionPromiseRef := sessionPromiseRef r; streamRef := streamRef r;
       inputAudioContextRef := inputAudioContextRef r;
       outputAudioContextRef := outputAudioContextRef r;
       scriptProcessorRef := scriptProcessorRef r;
       mediaStreamSourceRef := mediaStreamSourceRef r; nextStartTimeRef := v;
       sourcesRef := sourcesRef r |}).

Definition set_sourcesRef (v : gset N) : World -> World :=
  onRefs (fun r =>
    {| sessionPromiseRef := sessionPromiseRef r; streamRef := streamRef r;
       inputAudioContextRef := inputAudioContextRef r;
       outputAudioContextRef := outputAudioContextRef r;
       scriptProcessorRef := scriptProcessorRef r;
       mediaStreamSourceRef := mediaStreamSourceRef r;
       nextStartTimeRef := nextStartTimeRef r; sourcesRef := v |}).

(** The component as it is mounted, with the transcript the parent hands
    it. *)
Definition initialWorld (history : list TranscriptTurn) : World :=
  {| state := {| connectionState := idle; voiceStatus := Idle;
                 errorText := None; currentInputTranscription := "";
                 currentOutputTranscription := "" |};
     refs := {| sessionPromiseRef := None; streamRef := None;
                inputAudioContextRef := None; outputAudioContextRef := None;
                scriptProcessorRef := None; mediaStreamSourceRef := None;
                nextStartTimeRef := 0; sourcesRef := ∅ |};
     browser := {| objects := ∅; nextId := 0; calls := [] |};
     history := history;
     awaitingMicrophone := [] |}.

(** ** Operations on the browser's objects *)

(** A new object, under a fresh id. *)
Definition create (o : BrowserObject) (w : World) : N * World :=
  (nextId (browser w),
   onBrowser (fun b =>
     {| objects := <[nextId b := o]> (objects b);
        nextId := N.succ (nextId b); calls := calls b |}) w).

Definition update (id : N) (f : BrowserObject -> BrowserObject) : World -> World :=
  onBrowser (fun b =>
    {| objects := alter f id (objects b); nextId := nextId b;
       calls := calls b |}).

Definition logCall (c : Call) : World -> World :=
  onBrowser (fun b =>
    {| objects := objects b; nextId := nextId b; calls := calls b ++ [c] |}).

Definition closeRequest (o : BrowserObject) : BrowserObject :=
  match o with LiveSession env _ => LiveSession env true | _ => o end.

Definition stopTracks (o : BrowserObject) : BrowserObject :=
  match o with MediaStream _ => MediaStream false | _ => o end.

Definition connectNode (o : BrowserObject) : BrowserObject :=
  match o with
  | MediaStreamAudioSourceNode stream _ => MediaStreamAudioSourceNode stream true
  | ScriptProcessorNode _ => ScriptProcessorNode true
  | _ => o
  end.

Definition disconnectNode (o : BrowserObject) : BrowserObject :=
  match o with
  | MediaStreamAudioSourceNode stream _ => MediaStreamAudioSourceNode stream false
  | ScriptProcessorNode _ => ScriptProcessorNode false
  | _ => o
  end.

Definition closeContext (o : BrowserObject) : BrowserObject :=
  match o with AudioContext _ rate => AudioContext ctx_closed rate | _ => o end.

Definition stopSource (o : BrowserObject) : BrowserObject :=
  match o with
  | AudioBufferSourceNode when duration _ => AudioBufferSourceNode when duration true
  | _ => o
  end.

(** [sessionPromise.then(session => session.close())]: the close is
    requested now and carried out once the connection promise settles. *)
Definition session_close (session : N) (w : World) : World :=
  logCall (SessionClose session) (update session closeRequest w).

(** [stream.getTracks().forEach(track => track.stop())] *)
Definition tracks_stop (stream : N) (w : World) : World :=
  logCall (TrackStop stream) (update stream stopTracks w).

(** [node.disconnect()] *)
Definition node_disconnect (node : N) (w : World) : World :=
  logCall (Disconnect node) (update node disconnectNode w).

(** [context.close()]: the state reads ['closed'] from the call on. *)
Definition context_close (context : N) (w : World) : World :=
  logCall (ContextClose context) (update context closeContext w).

(** [context.state !== 'closed']. A context ref holds a context; at any
    other id the test is taken to fail, so that nothing is closed there. *)
Definition context_notClosed (context : N) (w : World) : bool :=
  match objects (browser w) !! context with
  | Some (AudioContext st _) => negb (bool_decide (st = ctx_closed))
  | _ => false
  end.

(** [sources.forEach(source => source.stop())] *)
Definition sources_stop (sources : gset N) (w : World) : World :=
  onBrowser (fun b =>
    {| objects := set_fold (fun source objs => alter stopSource source objs)
                    (objects b) sources;
       nextId := nextId b; calls := calls b |}) w.

(** ** The component's functions *)

(** The constants a render binds, read off the world at that time. *)
Definition render (w : World) : Closure :=
  {| cl_connectionState := connectionState (state w);
     cl_currentInputTranscription := currentInputTranscription (state w);
     cl_currentOutputTranscription := currentOutputTranscription (state w);
     cl_history := history w |}.

(** [stopConversation], lines 39-71. *)
Definition stopConversation (w : World) : World :=
  let w := match sessionPromiseRef (refs w) with
           | Some session => set_sessionPromiseRef None (session_close session w)
           | None => w
           end in
  let w := match streamRef (refs w) with
           | Some stream => set_streamRef None (tracks_stop stream w)
           | None => w
           end in
  let w := match scriptProcessorRef (refs w) with
           | Some node => set_scriptProcessorRef None (node_disconnect node w)
           | None => w
           end in
  let w := match mediaStreamSourceRef (refs w) with
           | Some node => set_mediaStreamSourceRef None (node_disconnect node w)
           | None => w
           end in
  let w := match inputAudioContextRef (refs w) with
           | Some context =>
               if context_notClosed context w then context_close context w else w
           | None => w
           end in
  let w := match outputAudioContextRef (refs w) with
           | Some context =>
               if context_notClosed context w then context_close context w else w
           | None => w
           end in
  setVoiceStatus Idle (setConnectionState idle w).

Definition microphoneDeniedMessage : string :=
  "Microphone access was denied. Please allow microphone permissions in your browser settings and try again.".

Definition unexpectedErrorMessage : string := "An unexpected error occurred.".

Definition connectionErrorMessage : string :=
  "A connection error occurred. Please check your network and try starting the conversation again.".

(** The condition of line 188. *)
Definition isPermissionDenied (name message : string) : bool :=
  String.eqb name "NotAllowedError"
  || String.eqb name "PermissionDeniedError"
  || JsString.includes message "Permission denied".

(** [errorMessage] of the catch block, lines 186-193. *)
Definition errorMessage (err : Thrown) : string :=
  match err with
  | ErrorObject name message =>
      if isPermissionDenied name message then microphoneDeniedMessage
      else message
  | OtherValue => unexpectedErrorMessage
  end.

(** The catch block of [startConversation], lines 184-197. *)
Definition catchStartFailure (err : Thrown) (w : World) : World :=
  setVoiceStatus Idle
    (setConnectionState error (setError (Some (errorMessage err)) w)).

(** [startConversation] up to its [await], lines 73-83: the guard reads the
    [connectionState] of the render the function belongs to. *)
Definition startConversation (env : Closure) (w : World) : World :=
  match cl_connectionState env with
  | idle | error | closed =>
      let w := setConnectionState connecting w in
      let w := setVoiceStatus Connecting w in
      let w := setError None w in
      let w := setCurrentInputTranscription "" w in
      let w := setCurrentOutputTranscription "" w in
      set_awaitingMicrophone (awaitingMicrophone w ++ [env]) w
  | connecting | connected => w
  end.

(** How the rest of the [try] block goes once [getUserMedia] settles. *)
Inductive StartOutcome : Set :=
  | getUserMediaRejects (err : Thrown)
  | GoogleGenAIThrows (err : Thrown)
  | AudioContextThrows (err : Thrown)
  | connectThrows (err : Thrown)
  | connectReturns.

(** [startConversation] from its [await] on, lines 83-197. *)
Definition startConversation_resume
    (env : Closure) (outcome : StartOutcome) (w : World) : World :=
  match outcome with
  | getUserMediaRejects err => catchStartFailure err w
  | _ =>
      let '(stream, w) := create (MediaStream true) w in
      let w := set_streamRef (Some stream) w in
      match outcome with
      | GoogleGenAIThrows err => catchStartFailure err w
      | AudioContextThrows err => catchStartFailure err w
      | _ =>
          let '(context, w) := create (AudioContext ctx_running 24000) w in
          let w := set_outputAudioContextRef (Some context) w in
          match outcome with
          | connectThrows err => catchStartFailure err w
          | _ =>
              let '(session, w) := create (LiveSession env false) w in
              set_sessionPromiseRef (Some session) w
          end
      end
  end.

(** [onopen], lines 93-111. With [streamRef.current] null,
    [createMediaStreamSource] throws and the handler stops there. *)
Definition onopen (w : World) : World :=
  let w := setConnectionState connected w in
  let '(context, w) := create (AudioContext ctx_running 16000) w in
  let w := set_inputAudioContextRef (Some context) w in
  match streamRef (refs w) with
  | None => w
  | Some stream =>
      let '(source, w) := create (MediaStreamAudioSourceNode stream false) w in
      let w := set_mediaStreamSourceRef (Some source) w in
      let '(processor, w) := create (ScriptProcessorNode false) w in
      let w := set_scriptProcessorRef (Some processor) w in
      update processor connectNode (update source connectNode w)
  end.

(** [onerror], lines 160-166. *)
Definition onerror (w : World) : World :=
  let w := setError (Some connectionErrorMessage) w in
  let w := setConnectionState error w in
  let w := setVoiceStatus Idle w in
  stopConversation w.

(** [onclose], lines 167-171. *)
Definition onclose (w : World) : World :=
  let w := setConnectionState closed w in
  let w := setVoiceStatus Idle w in
  stopConversation w.

(** The ['ended'] listener of line 122. *)
Definition onended (source : N) (w : World) : World :=
  set_sourcesRef (sourcesRef (refs w) ∖ {[source]}) w.

(** The button's [onClick], line 235. *)
Definition onClick (w : World) : World :=
  if bool_decide (connectionState (state w) = connected)
  then stopConversation w
  else startConversation (render w) w.

(** The effect's cleanup, lines 200-204. *)
Definition cleanup (w : World) : World := stopConversation w.

Section Component.

(** [decodeAudioData(decode(base64), context, 24000, 1)] of [utils/audio],
    which is not part of the sources at hand: the number of frames of the
    buffer it resolves to, or [None] when decoding throws. It is taken to
    settle before any other event is handled. *)
Variable decodeAudioData : string -> option N.

(** [message.serverContent?.modelTurn?.parts[0]?.inlineData?.data] of line
    113: [None] when the indexing throws (a model turn without parts),
    [Some None] for [undefined]. *)
Definition base64AudioOf (message : LiveServerMessage) : option (option string) :=
  match modelTurn message with
  | None => Some None
  | Some None => None
  | Some (Some parts) => Some (mjoin (head parts))
  end.

(** The audio part of [onmessage], lines 113-126. [inr] is the world left
    behind when the handler ends there with an exception. *)
Definition onmessage_audio
    (now : N) (message : LiveServerMessage) (w : World) : World + World :=
  match base64AudioOf message with
  | None => inr w
  | Some base64Audio =>
      match base64Audio, outputAudioContextRef (refs w) with
      | Some base64Audio, Some _ =>
          if JsString.truthy base64Audio then
            let w := setVoiceStatus Speaking w in
            let w := set_nextStartTimeRef
                       (N.max (nextStartTimeRef (refs w)) now) w in
            match decodeAudioData base64Audio with
            | Some duration =>
                let '(source, w) :=
                  create (AudioBufferSourceNode
                            (nextStartTimeRef (refs w)) duration false) w in
                let w := set_nextStartTimeRef
                           (nextStartTimeRef (refs w) + duration) w in
                inl (set_sourcesRef ({[source]} ∪ sourcesRef (refs w)) w)
            | None => inr w
            end
          else inl w
      | _, _ => inl w
      end
  end.

(** The transcript part of [onmessage], lines 128-152. *)
Definition onmessage_transcript
    (env : Closure) (message : LiveServerMessage) (w : World) : World :=
  let tempInput := default "" (inputTranscription message) in
  let tempOutput := default "" (outputTranscription message) in
  let w := match inputTranscription message with
           | Some _ =>
               let w := setVoiceStatus Listening w in
               setCurrentInputTranscription
                 (currentInputTranscription (state w) +:+ tempInput) w
           | None => w
           end in
  let w := match outputTranscription message with
           | Some _ =>
               let w := setVoiceStatus Speaking w in
               setCurrentOutputTranscription
                 (currentOutputTranscription (state w) +:+ tempOutput) w
           | None => w
           end in
  if turnComplete message then
    let w := setVoiceStatus Listening w in
    let fullInput := cl_currentInputTranscription env +:+ tempInput in
    let fullOutput := cl_currentOutputTranscription env +:+ tempOutput in
    let w := if JsString.truthy (JsString.trim fullInput)
                || JsString.truthy (JsString.trim fullOutput)
             then set_history
                    (cl_history env ++ [{| user := fullInput; model := fullOutput |}]) w
             else w in
    let w := setCurrentInputTranscription "" w in
    setCurrentOutputTranscription "" w
  else w.

(** The interruption part of [onmessage], lines 154-158. *)
Definition onmessage_interrupted (message : LiveServerMessage) (w : World) : World :=
  if interrupted message then
    let w := sources_stop (sourcesRef (refs w)) w in
    let w := set_sourcesRef ∅ w in
    set_nextStartTimeRef 0 w
  else w.

(** [onmessage], lines 112-159, of a session whose callbacks close over
    [env]; [now] is the [currentTime] the output context shows. *)
Definition onmessage
    (env : Closure) (now : N) (message : LiveServerMessage) (w : World) : World :=
  match onmessage_audio now message w with
  | inl w => onmessage_interrupted message (onmessage_transcript env message w)
  | inr w => w
  end.

(** ** Events *)

(** What can happen to a mounted component. The session events name the
    session whose callback fires. *)
Inductive Event : Set :=
  | Click
  | MicrophoneSettles (call : nat) (outcome : StartOutcome)
  | SessionOpen (session : N)
  | SessionMessage (session : N) (now : N) (message : LiveServerMessage)
  | SessionError (session : N)
  | SessionClosed (session : N)
  | SourceEnded (source : N)
  | Unmount.

Definition closureOf (session : N) (w : World) : option Closure :=
  match objects (browser w) !! session with
  | Some (LiveSession env _) => Some env
  | _ => None
  end.

Definition step (w : World) (e : Event) : World :=
  match e with
  | Click => onClick w
  | MicrophoneSettles call outcome =>
      match awaitingMicrophone w !! call with
      | Some env =>
          startConversation_resume env outcome
            (set_awaitingMicrophone (delete call (awaitingMicrophone w)) w)
      | None => w
      end
  | SessionOpen session =>
      match closureOf session w with Some _ => onopen w | None => w end
  | SessionMessage session now message =>
      match closureOf session w with
      | Some env => onmessage env now message w
      | None => w
      end
  | SessionError session =>
      match closureOf session w with Some _ => onerror w | None => w end
  | SessionClosed session =>
      match closureOf session w with Some _ => onclose w | None => w end
  | SourceEnded source => onended source w
  | Unmount => cleanup w
  end.

Definition run (w : World) (events : list Event) : World :=
  fold_left step events w.

(** The messages of a session handled one after the other. *)
Definition onmessages
    (env : Closure) (messages : list (N * LiveServerMessage)) (w : World) : World :=
  fold_left (fun w m => onmessage env (fst m) (snd m) w) messages w.

End Component.

(** ** What the properties speak about *)

(** The time a playback source was started at. *)
Definition scheduledStart (source : N) (w : World) : option N :=
  match objects (browser w) !! source with
  | Some (AudioBufferSourceNode when _ _) => Some when
  | _ => None
  end.

(** The source exists and has been stopped. *)
Definition forceStopped (source : N) (w : World) : Prop :=
  exists when duration,
    objects (browser w) !! source = Some (AudioBufferSourceNode when duration true).

(** The message carries an audio payload that decodes to [duration] frames. *)
Definition carriesUnit
    (decodeAudioData : string -> option N)
    (message : LiveServerMessage) (duration : N) : Prop :=
  exists base64Audio,
    base64AudioOf message = Some (Some base64Audio)
    /\ JsString.truthy base64Audio = true
    /\ decodeAudioData base64Audio = Some duration.

(** The audio part of the handler cannot throw on the message: a model
    turn has its parts, and a payload that is not empty decodes. *)
Definition decodable
    (decodeAudioData : string -> option N) (message : LiveServerMessage) : Prop :=
  match base64AudioOf message with
  | None => False
  | Some None => True
  | Some (Some base64Audio) =>
      JsString.truthy base64Audio = true -> is_Some (decodeAudioData base64Audio)
  end.

(** A message of an uninterrupted stretch of playback: it carries no
    interruption signal, and nothing in its audio part throws. It may
    bring a decoded audio unit or none. *)
Definition steady
    (decodeAudioData : string -> option N) (m : N * LiveServerMessage) : Prop :=
  interrupted (snd m) = false /\ decodable decodeAudioData (snd m).

(** The unit a message brings, as the clock it meets and its duration:
    none when the message has no payload or an empty one. *)
Definition unitOf
    (decodeAudioData : string -> option N) (m : N * LiveServerMessage)
    : option (N * N) :=
  match base64AudioOf (snd m) with
  | Some (Some base64Audio) =>
      if JsString.truthy base64Audio
      then (fun duration => (fst m, duration)) <$> decodeAudioData base64Audio
      else None
  | _ => None
  end.

(** Clock reading and duration of each unit the messages bring. *)
Definition playedUnits
    (decodeAudioData : string -> option N)
    (messages : list (N * LiveServerMessage)) : list (N * N) :=
  omap (unitOf decodeAudioData) messages.

(** The event is a message of a session. *)
Definition isMessage (e : Event) : bool :=
  match e with SessionMessage _ _ _ => true | _ => false end.

(** The message carries no audio payload. *)
Definition carriesNoAudio (message : LiveServerMessage) : Prop :=
  base64AudioOf message = Some None.

(** The handler of the message runs to its end: no exception cuts it short. *)
Definition runsThrough
    (decodeAudioData : string -> option N)
    (now : N) (message : LiveServerMessage) (w : World) : Prop :=
  exists w', onmessage_audio decodeAudioData now message w = inl w'.

(** The cursor as the specification words it: the durations of the units
    so far summed up, each unit clamped to the playback clock it met. *)
Definition clampedSum (cursor : N) (units : list (N * N)) : N :=
  fold_left (fun c unit => N.max c (fst unit) + snd unit) units cursor.

Definition sumOfDurations (units : list (N * N)) : N :=
  fold_right (fun unit total => snd unit + total) 0 units.

(** No unit met a clock that had run past the cursor. *)
Fixpoint onTime (cursor : N) (units : list (N * N)) : Prop :=
  match units with
  | [] => True
  | unit :: units => fst unit <= cursor /\ onTime (cursor + snd unit) units
  end.

(** A session that was created and has not been asked to close. *)
Definition live (w : World) (session : N) : Prop :=
  exists env, objects (browser w) !! session = Some (LiveSession env false).

Definition atMostOneSession (w : World) : Prop :=
  forall s1 s2, live w s1 -> live w s2 -> s1 = s2.

(** The event runs [stopConversation]. *)
Definition tearsDown (w : World) (e : Event) : bool :=
  match e with
  | Click => bool_decide (connectionState (state w) = connected)
  | SessionError session | SessionClosed session =>
      bool_decide (is_Some (closureOf session w))
  | Unmount => true
  | _ => false
  end.

(** No teardown runs while a call of [startConversation] is waiting for
    the microphone. *)
Fixpoint undisturbed
    (decodeAudioData : string -> option N) (w : World) (events : list Event) : Prop :=
  match events with
  | [] => True
  | e :: events =>
      (awaitingMicrophone w <> [] -> tearsDown w e = false)
      /\ undisturbed decodeAudioData (step decodeAudioData w e) events
  end.

(** The handles the claim of a clean stop counts. *)
Definition retainsNoHandle (w : World) : Prop :=
  streamRef (refs w) = None
  /\ scriptProcessorRef (refs w) = None
  /\ mediaStreamSourceRef (refs w) = None
  /\ inputAudioContextRef (refs w) = None
  /\ outputAudioContextRef (refs w) = None.

(** The object a ref points at. *)
Definition objectAt (ref : option N) (w : World) : option BrowserObject :=
  match ref with Some id => objects (browser w) !! id | None => None end.

(** Two worlds that hold the same refs and the same browser objects, with
    the same calls made on them. *)
Definition sameResources (w1 w2 : World) : Prop :=
  refs w1 = refs w2 /\ browser w1 = browser w2.

(** One guarded block of [stopConversation]. *)
Definition guarded (ref : Refs -> option N) (act : N -> World -> World)
    (w : World) : World :=
  match ref (refs w) with Some id => act id w | None => w end.

Definition closeIfOpen (context : N) (w : World) : World :=
  if context_notClosed context w then context_close context w else w.

Definition alterAt (f : BrowserObject -> BrowserObject) (ref : option N)
    (objs : gmap N BrowserObject) : gmap N BrowserObject :=
  match ref with Some id => alter f id objs | None => objs end.

(** The browser objects once everything the refs hold has been released. *)
Definition releasedObjects (w : World) : gmap N BrowserObject :=
  alterAt closeContext (outputAudioContextRef (refs w))
    (alterAt closeContext (inputAudioContextRef (refs w))
      (alterAt disconnectNode (mediaStreamSourceRef (refs w))
        (alterAt disconnectNode (scriptProcessorRef (refs w))
          (alterAt stopTracks (streamRef (refs w))
            (alterAt closeRequest (sessionPromiseRef (refs w))
               (objects (browser w))))))).

(** What the catch block of [startConversation] catches, if anything. *)
Definition failureOf (outcome : StartOutcome) : option Thrown :=
  match outcome with
  | getUserMediaRejects err | GoogleGenAIThrows err
  | AudioContextThrows err | connectThrows err => Some err
  | connectReturns => None
  end.



(** The states [startConversation] goes on from, line 74. *)
Definition mayStart (cs : ConnectionState) : Prop :=
  cs = idle \/ cs = closed \/ cs = error.

#[export] Instance mayStart_dec cs : Decision (mayStart cs).
Proof. unfold mayStart. apply _. Defined.

Definition liveIn (objs : gmap N BrowserObject) (session : N) : Prop :=
  exists env, objs !! session = Some (LiveSession env false).

(** An operation on objects that neither makes a session live nor turns
    another object into a session. *)
Definition quietOnSessions (f : BrowserObject -> BrowserObject) : Prop :=
  forall o env, f o = LiveSession env false -> o = LiveSession env false.

(** What holds of the sessions as long as no teardown cuts across a
    start: the one live session is the one [sessionPromiseRef] holds, a
    call waiting for the microphone waits alone, in a state that blocks
    the next start, with no session held, and no session is held in a
    state a start goes on from. *)
Definition settled (w : World) : Prop :=
  (forall session, live w session -> sessionPromiseRef (refs w) = Some session)
  /\ (awaitingMicrophone w <> [] ->
        ~ mayStart (connectionState (state w))
        /\ sessionPromiseRef (refs w) = None
        /\ length (awaitingMicrophone w) = 1%nat)
  /\ (mayStart (connectionState (state w)) -> sessionPromiseRef (refs w) = None).

(** ** Sample inputs *)

(** A decoder for the examples: two bytes a frame, three bytes in four
    characters; it never throws. *)
Definition sampleDecoder (base64 : string) : option N :=
  Some (N.of_nat (String.length base64) * 3 / 8).

Definition audioMessage (base64 : string) (interrupt : bool) : LiveServerMessage :=
  {| modelTurn := Some (Some [Some base64]);
     inputTranscription := None; outputTranscription := None;
     turnComplete := false; interrupted := interrupt |}.

Definition textMessage
    (input output : option string) (complete : bool) : LiveServerMessage :=
  {| modelTurn := None;
     inputTranscription := input; outputTranscription := output;
     turnComplete := complete; interrupted := false |}.

Definition interruption : LiveServerMessage :=
  {| modelTurn := None;
     inputTranscription := None; outputTranscription := None;
     turnComplete := false; interrupted := true |}.

(** A component that was started and whose session (object 2) has opened. *)
Definition connectedWorld : World :=
  run sampleDecoder (initialWorld [])
    [Click; MicrophoneSettles 0 connectReturns; SessionOpen 2].

(** 16 characters of base64: 6 frames. *)
Definition chunk16 : string := "AAAAAAAAAAAAAAAA".

(** 32 characters of base64: 12 frames. *)
Definition chunk32 : string := "AAAAAAAAAAAAAAAAAAAAAAAAAAAAAAAA".

(** Three units: the second arrives in time, the third late. *)
Definition threeUnits : list (N * LiveServerMessage) :=
  [(5, audioMessage chunk16 false); (7, audioMessage chunk32 false);
   (30, audioMessage chunk16 false)].

(** The connected component with the first two units scheduled. *)
Definition playingWorld : World :=
  onmessages sampleDecoder (render (initialWorld [])) (take 2 threeUnits)
    connectedWorld.

(** Two units with a fragment of the transcript between them. *)
Definition mixedMessages : list (N * LiveServerMessage) :=
  [(5, audioMessage chunk16 false); (6, textMessage None (Some "hi") false);
   (7, audioMessage chunk32 false)].

(** The connected component after these three messages. *)
Definition heardWorld : World :=
  onmessages sampleDecoder (render (initialWorld [])) mixedMessages connectedWorld.

(** A stop and the next start, up to the opening of its session. *)
Definition restartEvents : list Event :=
  [Click; Click; MicrophoneSettles 0 connectReturns; SessionOpen 10].

(** An interruption in a message whose model turn has no parts. *)
Definition interruptionWithoutParts : LiveServerMessage :=
  {| modelTurn := Some None;
     inputTranscription := None; outputTranscription := None;
     turnComplete := false; interrupted := true |}.

(** A component that was clicked once and waits for the microphone. *)
Definition waitingWorld : World := run sampleDecoder (initialWorld []) [Click].

(** A conversation, its stop, the close of its session and a second
    conversation. *)
Definition calmEvents : list Event :=
  [Click; MicrophoneSettles 0 connectReturns; SessionOpen 2;
   SessionMessage 2 5 (audioMessage chunk16 false); Click; SessionClosed 2;
   Click; MicrophoneSettles 0 connectReturns].

(** The user stops and starts again, the close of the old session lands
    while the new start waits for the microphone, and the user clicks once
    more. *)
Definition raceEvents : list Event :=
  [Click; MicrophoneSettles 0 connectReturns; SessionOpen 2; Click; Click;
   SessionClosed 2; Click; MicrophoneSettles 0 connectReturns;
   MicrophoneSettles 0 connectReturns].

(** ** What the component shows *)

(** A string in a JSX condition, [{s && <p>...{s}</p>}]: the paragraph
    with the string, or nothing for the empty string. *)
Definition whenTruthy (s : string) : option string :=
  if JsString.truthy s then Some s else None.

(** What stands in front of the button's text. *)
Inductive ButtonGlyph : Set :=
  | IconGlyph (icon : string)   (* <Icon icon=... /> *)
  | LoaderGlyph.                (* <Loader text='' /> *)

Record ButtonContent : Set := { glyph : ButtonGlyph; label : string }.

(** [getButtonContent], lines 206-217. *)
Definition getButtonContent (env : Closure) : ButtonContent :=
  match cl_connectionState env with
  | idle | closed | error =>
      {| glyph := IconGlyph "mic"; label := " Start Conversation" |}
  | connecting => {| glyph := LoaderGlyph; label := " Connecting..." |}
  | connected => {| glyph := IconGlyph "stop"; label := " Stop Conversation" |}
  end.

(** One turn of the transcript as lines 246-249 show it. *)
Record TurnView : Set := {
  youParagraph : option string;   (* turn.user && ... *)
  aiParagraph : option string     (* turn.model && ... *)
}.

Definition turnView (turn : TranscriptTurn) : TurnView :=
  {| youParagraph := whenTruthy (user turn);
     aiParagraph := whenTruthy (model turn) |}.

(** What the JSX of lines 219-262 shows, as far as it depends on the
    state and the props. *)
Record View : Set := {
  pingShown : bool;                (* lines 224-226 *)
  statusText : VoiceStatus;        (* line 230 *)
  buttonContent : ButtonContent;   (* line 238 *)
  errorBox : option string;        (* line 240 *)
  turnViews : list TurnView;       (* lines 245-250 *)
  interimYou : option string;      (* line 251 *)
  interimAi : option string;       (* line 252 *)
  listeningHint : bool;            (* lines 253-255 *)
  startHint : bool                 (* lines 256-258 *)
}.

(** The component as rendered in world [w]. *)
Definition view (w : World) : View :=
  let isConnected := bool_decide (connectionState (state w) = connected) in
  let noHistory := bool_decide (length (history w) = 0%nat) in
  {| pingShown := isConnected && bool_decide (voiceStatus (state w) = Listening);
     statusText := voiceStatus (state w);
     buttonContent := getButtonContent (render w);
     errorBox := match errorText (state w) with
                 | Some text => whenTruthy text
                 | None => None
                 end;
     turnViews := map turnView (history w);
     interimYou := whenTruthy (currentInputTranscription (state w));
     interimAi := whenTruthy (currentOutputTranscription (state w));
     listeningHint :=
       isConnected && noHistory
       && negb (JsString.truthy (currentInputTranscription (state w)));
     startHint := negb isConnected && noHistory |}.

(** ** The parent's side of the transcript *)

(** [serverTimestamp()] of Firestore. *)
Inductive FieldValue : Set := serverTimestamp.

(** The fields [handleUpdateVoiceChat] hands to [updateDoc]. *)
Record VoiceChatUpdate : Set := {
  transcripts : list TranscriptTurn;
  lastUpdated : FieldValue;
  title : option string
}.

(** [handleUpdateVoiceChat] of [App], lines 467-479 of [src/types.ts]: the
    path of the document and the fields written to it, or [None] when
    nothing is written. [currentUser] is [user], by its [uid]. *)
Definition handleUpdateVoiceChat
    (currentUser : option string) (chatId : string)
    (newTranscripts : list TranscriptTurn) : option (string * VoiceChatUpdate) :=
  match currentUser with
  | None => None
  | Some uid =>
      let chatDocRef := "users/" +:+ uid +:+ "/voiceChats" +:+ "/" +:+ chatId in
      let title :=
        match newTranscripts with
        | [turn] =>
            if JsString.truthy (user turn)
            then Some (String.substring 0 40 (user turn))
            else None
        | _ => None
        end in
      Some (chatDocRef,
            {| transcripts := newTranscripts; lastUpdated := serverTimestamp;
               title := title |})
  end.

(** The [onHistoryUpdate] the parent hands to the component, line 523 of
    [src/types.ts]. *)
Definition onHistoryUpdate
    (currentUser : option string) (activeVoiceChatId : option string)
    (newTranscripts : list TranscriptTurn) : option (string * VoiceChatUpdate) :=
  match activeVoiceChatId with
  | Some chatId =>
      if JsString.truthy chatId
      then handleUpdateVoiceChat currentUser chatId newTranscripts
      else None
  | None => None
  end.


(** ** What the further properties speak about *)

(** [fragments.join('')] *)
Definition joined (fragments : list string) : string :=
  fold_right String.append "" fragments.

(** The input and output fragments a message brings. *)
Definition inputFragment (m : N * LiveServerMessage) : string :=
  default "" (inputTranscription (snd m)).

Definition outputFragment (m : N * LiveServerMessage) : string :=
  default "" (outputTranscription (snd m)).

(** A decoder that takes no payload. *)
Definition deafDecoder (base64 : string) : option N := None.


(** A microphone stream whose tracks are live and which [streamRef] does
    not hold. *)
Definition orphaned (w : World) (stream : N) : Prop :=
  objects (browser w) !! stream = Some (MediaStream true)
  /\ stream < nextId (browser w)
  /\ streamRef (refs w) <> Some stream.

(** A start that fails for want of an API key, and the start after it. *)
Definition retryEvents : list Event :=
  [Click;
   MicrophoneSettles 0
     (GoogleGenAIThrows
        (ErrorObject "Error" "An API Key must be set when running in a browser."));
   Click; MicrophoneSettles 0 connectReturns].


(** The kind of a browser object: its interface, and for an audio
    context the rate it was made with. *)
Inductive Kind : Set :=
  | StreamKind
  | ContextKind (sampleRate : N)
  | StreamSourceKind
  | ProcessorKind
  | BufferSourceKind
  | SessionKind.

Definition kindOf (o : BrowserObject) : Kind :=
  match o with
  | MediaStream _ => StreamKind
  | AudioContext _ rate => ContextKind rate
  | MediaStreamAudioSourceNode _ _ => StreamSourceKind
  | ScriptProcessorNode _ => ProcessorKind
  | AudioBufferSourceNode _ _ _ => BufferSourceKind
  | LiveSession _ _ => SessionKind
  end.

Definition kindAt (w : World) (id : N) : option Kind :=
  kindOf <$> objects (browser w) !! id.

(** A ref is null or holds an object of the kind. *)
Definition holdsKind (w : World) (ref : option N) (kind : Kind) : Prop :=
  forall id, ref = Some id -> kindAt w id = Some kind.

(** Every ref holds null or an object of the type it is declared with
    (lines 29-37), the two contexts with the rates they are made with
    (lines 88 and 96), and the ids in use are below the next one. *)
Definition wellFormed (w : World) : Prop :=
  (forall id, is_Some (objects (browser w) !! id) -> id < nextId (browser w))
  /\ holdsKind w (sessionPromiseRef (refs w)) SessionKind
  /\ holdsKind w (streamRef (refs w)) StreamKind
  /\ holdsKind w (inputAudioContextRef (refs w)) (ContextKind 16000)
  /\ holdsKind w (outputAudioContextRef (refs w)) (ContextKind 24000)
  /\ holdsKind w (scriptProcessorRef (refs w)) ProcessorKind
  /\ holdsKind w (mediaStreamSourceRef (refs w)) StreamSourceKind
  /\ (forall id, id ∈ sourcesRef (refs w) -> kindAt w id = Some BufferSourceKind).

(** A ref of the world after is the ref of the world before, or null, or
    holds an object of the kind. *)
Definition refKept (w w' : World) (ref : Refs -> option N) (kind : Kind) : Prop :=
  ref (refs w') = ref (refs w) \/ holdsKind w' (ref (refs w')) kind.


(** * Properties *)

Arguments sources_stop : simpl never.
Arguments context_notClosed : simpl never.

(** ** Strings *)

Lemma trimEnd_truthy s : JsString.truthy (JsString.trimEnd s) = JsString.hasInk s.
Proof.
  induction s as [|c s IH]; simpl; [reflexivity|].
  destruct (JsString.trimEnd s) eqn:E; simpl in *.
  - rewrite <- IH. destruct (JsString.isWhiteSpace c); reflexivity.
  - rewrite <- IH. symmetry. apply orb_true_r.
Qed.

Lemma trimStart_hasInk s : JsString.hasInk (JsString.trimStart s) = JsString.hasInk s.
Proof.
  induction s as [|c s IH]; simpl; [reflexivity|].
  destruct (JsString.isWhiteSpace c) eqn:E; simpl; [exact IH|].
  rewrite E. reflexivity.
Qed.

(** [s.trim()] is truthy exactly when [s] has a character that is not
    white space. *)
Lemma trim_truthy s : JsString.truthy (JsString.trim s) = JsString.hasInk s.
Proof. unfold JsString.trim. rewrite trimEnd_truthy. apply trimStart_hasInk. Qed.

Example includes_found :
  JsString.includes "NotAllowedError: Permission denied by system" "Permission denied"
  = true.
Proof. reflexivity. Qed.

Example includes_is_case_sensitive :
  JsString.includes microphoneDeniedMessage "Permission denied" = false.
Proof. reflexivity. Qed.

Example trim_of_blanks : JsString.trim "  	 " = "".
Proof. reflexivity. Qed.

Example trim_keeps_inner_blanks : JsString.trim "  hello  world " = "hello  world".
Proof. reflexivity. Qed.

(** ** The object store *)

Lemma sources_stop_lookup (sources : gset N) w i :
  (i ∈ sources ->
     objects (browser (sources_stop sources w)) !! i
     = stopSource <$> objects (browser w) !! i)
  /\ (i ∉ sources ->
     objects (browser (sources_stop sources w)) !! i = objects (browser w) !! i).
Proof.
  unfold sources_stop; simpl.
  generalize (objects (browser w)); intros objs.
  apply (set_fold_ind_L (fun r (X : gset N) =>
    (i ∈ X -> r !! i = stopSource <$> objs !! i)
    /\ (i ∉ X -> r !! i = objs !! i))).
  - split; [intros H; exfalso; revert H; apply not_elem_of_empty | reflexivity].
  - intros x X r Hx [IHin IHout].
    destruct (decide (i = x)) as [->|Hne].
    + split.
      * intros _. rewrite lookup_alter_eq. rewrite IHout by exact Hx. reflexivity.
      * intros H. exfalso. apply H, elem_of_union_l, elem_of_singleton. reflexivity.
    + rewrite lookup_alter_ne by congruence. split.
      * intros H. apply IHin. apply elem_of_union in H as [H|H]; [|exact H].
        apply elem_of_singleton in H. contradiction.
      * intros H. apply IHout. intros Hi. apply H, elem_of_union_r, Hi.
Qed.

Lemma sources_stop_member (sources : gset N) w i :
  i ∈ sources ->
  objects (browser (sources_stop sources w)) !! i
  = stopSource <$> objects (browser w) !! i.
Proof. apply sources_stop_lookup. Qed.

Lemma sources_stop_state sources w : state (sources_stop sources w) = state w.
Proof. reflexivity. Qed.

Lemma sources_stop_refs sources w : refs (sources_stop sources w) = refs w.
Proof. reflexivity. Qed.

Lemma sources_stop_awaiting sources w :
  awaitingMicrophone (sources_stop sources w) = awaitingMicrophone w.
Proof. reflexivity. Qed.

Lemma alterAt_lookup f ref (objs : gmap N BrowserObject) id o :
  objs !! id = Some o ->
  alterAt f ref objs !! id = Some o \/ alterAt f ref objs !! id = Some (f o).
Proof.
  intros H. destruct ref as [id'|]; cbn; [|left; exact H].
  destruct (decide (id' = id)) as [->|Hne].
  - right. rewrite lookup_alter_eq, H. reflexivity.
  - left. rewrite lookup_alter_ne by exact Hne. exact H.
Qed.

Lemma alterAt_keeps f ref (objs : gmap N BrowserObject) id o :
  f o = o -> objs !! id = Some o -> alterAt f ref objs !! id = Some o.
Proof.
  intros Hf H. destruct (alterAt_lookup f ref objs id o H) as [H'|H'];
    rewrite H'; congruence.
Qed.

Lemma alterAt_hits f (objs : gmap N BrowserObject) id o :
  objs !! id = Some o -> alterAt f (Some id) objs !! id = Some (f o).
Proof. intros H. cbn. rewrite lookup_alter_eq, H. reflexivity. Qed.

(** An operation that is idempotent, applied at one ref or the other or
    both, comes to one application. *)
Lemma alterAt_twice f ref ref' (objs : gmap N BrowserObject) id o :
  f (f o) = f o ->
  ref = Some id \/ ref' = Some id ->
  objs !! id = Some o ->
  alterAt f ref' (alterAt f ref objs) !! id = Some (f o).
Proof.
  intros Hi Href H.
  destruct (alterAt_lookup f ref objs id o H) as [H1|H1].
  - destruct Href as [-> | ->].
    + rewrite (alterAt_hits _ _ _ _ H) in H1.
      apply alterAt_keeps; [exact Hi|]. rewrite (alterAt_hits _ _ _ _ H). reflexivity.
    + apply alterAt_hits. exact H1.
  - apply alterAt_keeps; [exact Hi | exact H1].
Qed.

Ltac released :=
  repeat first
    [ match goal with
      | H : ?ref = Some ?id |- alterAt _ ?ref _ !! ?id = _ =>
          rewrite H; apply alterAt_hits
      end
    | apply alterAt_keeps; [reflexivity|]
    | eassumption ].

(** ** Teardown *)

Lemma closed_context_stays context w :
  context_notClosed context w = false ->
  alter closeContext context (objects (browser w)) = objects (browser w).
Proof.
  unfold context_notClosed. intros H. apply alter_id. intros o Ho.
  rewrite Ho in H. destruct o as [| st rate | | | |]; try reflexivity.
  cbn. destruct st; try discriminate H. reflexivity.
Qed.

Ltac stop_cases :=
  unfold stopConversation; cbn;
  repeat match goal with
  | |- context [match ?r with Some _ => _ | None => _ end] =>
      is_var r; destruct r; cbn
  | |- context [context_notClosed ?c ?w] =>
      let E := fresh "E" in
      destruct (context_notClosed c w) eqn:E; cbn;
      [| apply closed_context_stays in E; cbn in E; rewrite ?E ]
  end.

(** What [stopConversation] leaves of every part of the world but the
    call log. *)
Lemma stop_effect w :
  state (stopConversation w)
  = {| connectionState := idle; voiceStatus := Idle;
       errorText := errorText (state w);
       currentInputTranscription := currentInputTranscription (state w);
       currentOutputTranscription := currentOutputTranscription (state w) |}
  /\ refs (stopConversation w)
     = {| sessionPromiseRef := None; streamRef := None;
          inputAudioContextRef := inputAudioContextRef (refs w);
          outputAudioContextRef := outputAudioContextRef (refs w);
          scriptProcessorRef := None; mediaStreamSourceRef := None;
          nextStartTimeRef := nextStartTimeRef (refs w);
          sourcesRef := sourcesRef (refs w) |}
  /\ objects (browser (stopConversation w)) = releasedObjects w
  /\ nextId (browser (stopConversation w)) = nextId (browser w)
  /\ history (stopConversation w) = history w
  /\ awaitingMicrophone (stopConversation w) = awaitingMicrophone w.
Proof.
  destruct w as [st [r1 r2 r3 r4 r5 r6 r7 r8] [objs nid cs] h a].
  unfold releasedObjects. stop_cases; repeat split; reflexivity.
Qed.

(** The function is its six guarded blocks and the two state setters. *)
Lemma stopConversation_blocks w :
  stopConversation w
  = setVoiceStatus Idle (setConnectionState idle
      (guarded outputAudioContextRef closeIfOpen
        (guarded inputAudioContextRef closeIfOpen
          (guarded mediaStreamSourceRef
             (fun node w => set_mediaStreamSourceRef None (node_disconnect node w))
            (guarded scriptProcessorRef
               (fun node w => set_scriptProcessorRef None (node_disconnect node w))
              (guarded streamRef
                 (fun stream w => set_streamRef None (tracks_stop stream w))
                (guarded sessionPromiseRef
                   (fun session w =>
                      set_sessionPromiseRef None (session_close session w))
                   w))))))).
Proof. reflexivity. Qed.

Lemma guarded_sameResources ref act w1 w2 :
  (forall id v1 v2, sameResources v1 v2 -> sameResources (act id v1) (act id v2)) ->
  sameResources w1 w2 ->
  sameResources (guarded ref act w1) (guarded ref act w2).
Proof.
  intros Hact H. unfold guarded. destruct H as [Hr Hb]. rewrite Hr.
  destruct (ref (refs w2)); [apply Hact|]; split; assumption.
Qed.

Lemma closeIfOpen_sameResources id v1 v2 :
  sameResources v1 v2 -> sameResources (closeIfOpen id v1) (closeIfOpen id v2).
Proof.
  intros [Hr Hb]. unfold closeIfOpen, context_notClosed. rewrite Hb.
  destruct (objects (browser v2) !! id) as [[| st ? | | | |]|];
    try (split; assumption).
  destruct (negb (bool_decide (st = ctx_closed))); [|split; assumption].
  split; cbn; rewrite ?Hr, ?Hb; reflexivity.
Qed.

(** The releases neither read nor write the React state. *)
Lemma stop_sameResources w1 w2 :
  sameResources w1 w2 -> sameResources (stopConversation w1) (stopConversation w2).
Proof.
  intros H. rewrite !stopConversation_blocks.
  assert (Hlift : forall v1 v2, sameResources v1 v2 ->
            sameResources (setVoiceStatus Idle (setConnectionState idle v1))
                          (setVoiceStatus Idle (setConnectionState idle v2)))
    by (intros v1 v2 Hv; exact Hv).
  apply Hlift.
  repeat (apply guarded_sameResources;
          [ first [ exact closeIfOpen_sameResources
                  | intros id v1 v2 [Hr Hb]; split; cbn; rewrite ?Hr, ?Hb; reflexivity ]
          | ]).
  exact H.
Qed.

(** A world with nothing left to release is a fixed point. *)
Lemma stop_fixpoint w :
  sessionPromiseRef (refs w) = None ->
  streamRef (refs w) = None ->
  scriptProcessorRef (refs w) = None ->
  mediaStreamSourceRef (refs w) = None ->
  (forall c, inputAudioContextRef (refs w) = Some c -> context_notClosed c w = false) ->
  (forall c, outputAudioContextRef (refs w) = Some c -> context_notClosed c w = false) ->
  connectionState (state w) = idle ->
  voiceStatus (state w) = Idle ->
  stopConversation w = w.
Proof.
  destruct w as [[s1 s2 s3 s4 s5] [r1 r2 r3 r4 r5 r6 r7 r8] [objs nid cs] h a].
  cbn. intros -> -> -> -> Hin Hout -> ->.
  unfold stopConversation; cbn.
  destruct r3 as [c|]; [rewrite (Hin c eq_refl)|]; cbn;
    (destruct r4 as [c'|]; [rewrite (Hout c' eq_refl)|]); reflexivity.
Qed.

Lemma closeContext_closed o :
  match closeContext o with
  | AudioContext st _ => negb (bool_decide (st = ctx_closed))
  | _ => false
  end = false.
Proof. destruct o; reflexivity. Qed.

Lemma released_context_closed w c :
  inputAudioContextRef (refs w) = Some c \/ outputAudioContextRef (refs w) = Some c ->
  context_notClosed c (stopConversation w) = false.
Proof.
  intros H. unfold context_notClosed.
  destruct (stop_effect w) as (_ & _ & -> & _).
  unfold releasedObjects.
  set (objs := alterAt disconnectNode _ _).
  assert (Hin : forall m : gmap N BrowserObject,
            match alter closeContext c m !! c with
            | Some (AudioContext st _) => negb (bool_decide (st = ctx_closed))
            | _ => false
            end = false).
  { intros m. rewrite lookup_alter_eq. destruct (m !! c) as [o|]; [|reflexivity].
    apply closeContext_closed. }
  destruct (outputAudioContextRef (refs w)) as [c2|] eqn:Hout; cbn [alterAt].
  - destruct (decide (c2 = c)) as [->|Hne]; [apply Hin|].
    rewrite lookup_alter_ne by exact Hne.
    destruct H as [H|H]; [|congruence]. rewrite H. cbn [alterAt]. apply Hin.
  - destruct H as [H|H]; [|congruence]. rewrite H. cbn [alterAt]. apply Hin.
Qed.

Lemma stop_twice w :
  stopConversation (stopConversation w) = stopConversation w.
Proof.
  destruct (stop_effect w) as (Hs & Hr & _).
  apply stop_fixpoint; rewrite ?Hs, ?Hr; cbn; try reflexivity.
  - intros c Hc. apply released_context_closed. left. exact Hc.
  - intros c Hc. apply released_context_closed. right. exact Hc.
Qed.

Lemma onerror_teardown w : sameResources (onerror w) (stopConversation w).
Proof. unfold onerror. apply stop_sameResources. split; reflexivity. Qed.

Lemma onclose_teardown w : sameResources (onclose w) (stopConversation w).
Proof. unfold onclose. apply stop_sameResources. split; reflexivity. Qed.

Lemma released_session w session env requested :
  sessionPromiseRef (refs w) = Some session ->
  objects (browser w) !! session = Some (LiveSession env requested) ->
  releasedObjects w !! session = Some (LiveSession env true).
Proof.
  intros Href Hobj. unfold releasedObjects.
  change (LiveSession env true) with (closeRequest (LiveSession env requested)).
  released.
Qed.

Lemma released_stream w stream live :
  streamRef (refs w) = Some stream ->
  objects (browser w) !! stream = Some (MediaStream live) ->
  releasedObjects w !! stream = Some (MediaStream false).
Proof.
  intros Href Hobj. unfold releasedObjects.
  change (MediaStream false) with (stopTracks (MediaStream live)).
  released.
Qed.

Lemma released_processor w node connected :
  scriptProcessorRef (refs w) = Some node ->
  objects (browser w) !! node = Some (ScriptProcessorNode connected) ->
  releasedObjects w !! node = Some (ScriptProcessorNode false).
Proof.
  intros Href Hobj. unfold releasedObjects.
  do 2 (apply alterAt_keeps; [reflexivity|]).
  change (ScriptProcessorNode false)
    with (disconnectNode (ScriptProcessorNode connected)).
  apply alterAt_twice; [reflexivity | left; exact Href |].
  released.
Qed.

Lemma released_source w node stream connected :
  mediaStreamSourceRef (refs w) = Some node ->
  objects (browser w) !! node = Some (MediaStreamAudioSourceNode stream connected) ->
  releasedObjects w !! node = Some (MediaStreamAudioSourceNode stream false).
Proof.
  intros Href Hobj. unfold releasedObjects.
  do 2 (apply alterAt_keeps; [reflexivity|]).
  change (MediaStreamAudioSourceNode stream false)
    with (disconnectNode (MediaStreamAudioSourceNode stream connected)).
  apply alterAt_twice; [reflexivity | right; exact Href |].
  released.
Qed.

Lemma released_context w context st rate :
  inputAudioContextRef (refs w) = Some context
  \/ outputAudioContextRef (refs w) = Some context ->
  objects (browser w) !! context = Some (AudioContext st rate) ->
  releasedObjects w !! context = Some (AudioContext ctx_closed rate).
Proof.
  intros Href Hobj. unfold releasedObjects.
  change (AudioContext ctx_closed rate) with (closeContext (AudioContext st rate)).
  apply alterAt_twice; [reflexivity | exact Href |].
  released.
Qed.

(** C3, as amended. From every world, so from each of the states
    connecting, connected and error, [stopConversation] ends in state
    [idle] with the session, stream, processor and source-node refs set to
    null. The two audio-context refs keep what they held, and what they
    hold is closed. Every object a ref held is released: the session is
    asked to close, the stream's tracks are stopped, the nodes are
    disconnected and the contexts are closed. *)
Theorem stop_ends_idle_and_releases w :
  let w' := stopConversation w in
  connectionState (state w') = idle
  /\ sessionPromiseRef (refs w') = None
  /\ streamRef (refs w') = None
  /\ scriptProcessorRef (refs w') = None
  /\ mediaStreamSourceRef (refs w') = None
  /\ inputAudioContextRef (refs w') = inputAudioContextRef (refs w)
  /\ outputAudioContextRef (refs w') = outputAudioContextRef (refs w)
  /\ (forall context,
        inputAudioContextRef (refs w') = Some context
        \/ outputAudioContextRef (refs w') = Some context ->
        context_notClosed context w' = false)
  /\ (forall env requested,
        objectAt (sessionPromiseRef (refs w)) w = Some (LiveSession env requested) ->
        objectAt (sessionPromiseRef (refs w)) w' = Some (LiveSession env true))
  /\ (forall live,
        objectAt (streamRef (refs w)) w = Some (MediaStream live) ->
        objectAt (streamRef (refs w)) w' = Some (MediaStream false))
  /\ (forall connected,
        objectAt (scriptProcessorRef (refs w)) w = Some (ScriptProcessorNode connected) ->
        objectAt (scriptProcessorRef (refs w)) w' = Some (ScriptProcessorNode false))
  /\ (forall stream connected,
        objectAt (mediaStreamSourceRef (refs w)) w
          = Some (MediaStreamAudioSourceNode stream connected) ->
        objectAt (mediaStreamSourceRef (refs w)) w'
          = Some (MediaStreamAudioSourceNode stream false))
  /\ (forall st rate,
        objectAt (inputAudioContextRef (refs w)) w = Some (AudioContext st rate) ->
        objectAt (inputAudioContextRef (refs w)) w' = Some (AudioContext ctx_closed rate))
  /\ (forall st rate,
        objectAt (outputAudioContextRef (refs w)) w = Some (AudioContext st rate) ->
        objectAt (outputAudioContextRef (refs w)) w' = Some (AudioContext ctx_closed rate)).
Proof.
  cbv zeta. destruct (stop_effect w) as (Hs & Hr & Ho & _).
  rewrite Hs, Hr. cbn.
  repeat split; try reflexivity.
  - intros context Hc. apply released_context_closed. exact Hc.
  - intros env requested. unfold objectAt. rewrite Ho.
    destruct (sessionPromiseRef (refs w)) eqn:E; [|discriminate].
    apply released_session. exact E.
  - intros live. unfold objectAt. rewrite Ho.
    destruct (streamRef (refs w)) eqn:E; [|discriminate].
    apply released_stream. exact E.
  - intros connected. unfold objectAt. rewrite Ho.
    destruct (scriptProcessorRef (refs w)) eqn:E; [|discriminate].
    apply released_processor. exact E.
  - intros stream connected. unfold objectAt. rewrite Ho.
    destruct (mediaStreamSourceRef (refs w)) eqn:E; [|discriminate].
    apply released_source. exact E.
  - intros st rate. unfold objectAt. rewrite Ho.
    destruct (inputAudioContextRef (refs w)) eqn:E; [|discriminate].
    apply released_context. left. exact E.
  - intros st rate. unfold objectAt. rewrite Ho.
    destruct (outputAudioContextRef (refs w)) eqn:E; [|discriminate].
    apply released_context. right. exact E.
Qed.

(** After an error or a close the connection state and the voice status
    are the ones a stop leaves. *)
Lemma teardown_state w :
  connectionState (state (onerror w)) = connectionState (state (stopConversation w))
  /\ voiceStatus (state (onerror w)) = voiceStatus (state (stopConversation w))
  /\ connectionState (state (onclose w)) = connectionState (state (stopConversation w))
  /\ voiceStatus (state (onclose w)) = voiceStatus (state (stopConversation w)).
Proof.
  unfold onerror, onclose.
  destruct (stop_effect w) as (-> & _).
  destruct (stop_effect
              (setVoiceStatus Idle
                 (setConnectionState error
                    (setError (Some connectionErrorMessage) w)))) as (-> & _).
  destruct (stop_effect (setVoiceStatus Idle (setConnectionState closed w)))
    as (-> & _).
  repeat split.
Qed.

(** C7. A second [stopConversation] right after a first changes nothing:
    the world, its call log included, is the one the first call left, so
    no release is made twice. A stop after a teardown that an error, a
    close or the unmounting of the component set off is as idle. The
    teardown itself is the same whoever sets it off: [onerror], [onclose]
    and the effect's cleanup leave the refs and the browser objects, with
    the calls made on them, and the connection state and voice status as
    [stopConversation] does. The function is total: no case of it
    fails. *)
Theorem teardown_is_idempotent w :
  stopConversation (stopConversation w) = stopConversation w
  /\ calls (browser (stopConversation (stopConversation w)))
     = calls (browser (stopConversation w))
  /\ sameResources (onerror w) (stopConversation w)
  /\ sameResources (onclose w) (stopConversation w)
  /\ cleanup w = stopConversation w
  /\ connectionState (state (onerror w)) = connectionState (state (stopConversation w))
  /\ voiceStatus (state (onerror w)) = voiceStatus (state (stopConversation w))
  /\ connectionState (state (onclose w)) = connectionState (state (stopConversation w))
  /\ voiceStatus (state (onclose w)) = voiceStatus (state (stopConversation w))
  /\ stopConversation (onerror w) = onerror w
  /\ stopConversation (onclose w) = onclose w
  /\ stopConversation (cleanup w) = cleanup w.
Proof.
  split; [apply stop_twice|].
  split; [rewrite stop_twice; reflexivity|].
  split; [apply onerror_teardown|].
  split; [apply onclose_teardown|].
  split; [reflexivity|].
  destruct (teardown_state w) as (H1 & H2 & H3 & H4).
  split; [exact H1|]. split; [exact H2|]. split; [exact H3|]. split; [exact H4|].
  split; [apply stop_twice|].
  split; apply stop_twice.
Qed.

(** C4, what the code does. On a transport error, from every world, the
    handler shows the connection-error message, runs the teardown of
    [stopConversation] and starts nothing again; but the state it ends in
    is [idle], not [error]: the [setConnectionState('idle')] of the
    teardown comes after the handler's [setConnectionState('error')]. *)
Theorem onerror_ends_idle w :
  connectionState (state (onerror w)) = idle
  /\ errorText (state (onerror w)) = Some connectionErrorMessage
  /\ sameResources (onerror w) (stopConversation w)
  /\ awaitingMicrophone (onerror w) = awaitingMicrophone w.
Proof.
  unfold onerror.
  destruct (stop_effect
              (setVoiceStatus Idle
                 (setConnectionState error
                    (setError (Some connectionErrorMessage) w))))
    as (Hs & _ & _ & _ & _ & Ha).
  rewrite Hs, Ha. repeat split; try reflexivity; apply onerror_teardown.
Qed.

(** C6, what the code does. When the session closes, from every world,
    the handler runs the teardown of [stopConversation] and leaves the
    error message as it was; but the state it ends in is [idle], not
    [closed]: the [setConnectionState('idle')] of the teardown comes after
    the handler's [setConnectionState('closed')]. *)
Theorem onclose_ends_idle w :
  connectionState (state (onclose w)) = idle
  /\ errorText (state (onclose w)) = errorText (state w)
  /\ sameResources (onclose w) (stopConversation w).
Proof.
  unfold onclose.
  destruct (stop_effect (setVoiceStatus Idle (setConnectionState closed w)))
    as (Hs & _).
  rewrite Hs. repeat split; try reflexivity; apply onclose_teardown.
Qed.

(** ** Starting *)

Lemma startConversation_view env w :
  mayStart (cl_connectionState env) ->
  let w' := startConversation env w in
  connectionState (state w') = connecting
  /\ refs w' = refs w
  /\ browser w' = browser w
  /\ awaitingMicrophone w' = (awaitingMicrophone w ++ [env])%list.
Proof.
  intros H. unfold startConversation.
  destruct H as [-> | [-> | ->]]; repeat split.
Qed.

Lemma startConversation_noop env w :
  ~ mayStart (cl_connectionState env) -> startConversation env w = w.
Proof.
  unfold startConversation, mayStart.
  destruct (cl_connectionState env); intros H; try reflexivity; elim H; auto.
Qed.


(** ** Live sessions *)

Lemma stopTracks_quiet : quietOnSessions stopTracks.
Proof. intros o e H; destruct o; cbn in H; congruence. Qed.

Lemma disconnectNode_quiet : quietOnSessions disconnectNode.
Proof. intros o e H; destruct o; cbn in H; congruence. Qed.

Lemma connectNode_quiet : quietOnSessions connectNode.
Proof. intros o e H; destruct o; cbn in H; congruence. Qed.

Lemma closeContext_quiet : quietOnSessions closeContext.
Proof. intros o e H; destruct o; cbn in H; congruence. Qed.

Lemma stopSource_quiet : quietOnSessions stopSource.
Proof. intros o e H; destruct o; cbn in H; congruence. Qed.

Lemma closeRequest_quiet : quietOnSessions closeRequest.
Proof. intros o e H; destruct o; cbn in H; congruence. Qed.

Lemma closeRequest_not_live o env : closeRequest o <> LiveSession env false.
Proof. destruct o; cbn; congruence. Qed.

Lemma liveIn_alter f id objs session :
  quietOnSessions f -> liveIn (alter f id objs) session -> liveIn objs session.
Proof.
  intros Hf [env H]. exists env.
  destruct (decide (id = session)) as [->|Hne].
  - rewrite lookup_alter_eq in H.
    destruct (objs !! session) as [o|]; [|discriminate].
    cbn in H. injection H as H. rewrite (Hf _ _ H). reflexivity.
  - rewrite lookup_alter_ne in H by exact Hne. exact H.
Qed.

Lemma liveIn_alterAt f ref objs session :
  quietOnSessions f -> liveIn (alterAt f ref objs) session -> liveIn objs session.
Proof. destruct ref; cbn; [apply liveIn_alter | auto]. Qed.

Lemma liveIn_insert id o objs session :
  liveIn (<[id:=o]> objs) session ->
  (session = id /\ exists env, o = LiveSession env false) \/ liveIn objs session.
Proof.
  intros [env H]. destruct (decide (id = session)) as [->|Hne].
  - rewrite lookup_insert_eq in H. left. split; [reflexivity|].
    exists env. congruence.
  - rewrite lookup_insert_ne in H by exact Hne. right. exists env. exact H.
Qed.

(** After the teardown the session the ref held is live no more, and no
    other session has become live. *)
Lemma released_live w session :
  liveIn (releasedObjects w) session ->
  live w session /\ sessionPromiseRef (refs w) <> Some session.
Proof.
  unfold releasedObjects. intros H.
  apply liveIn_alterAt in H; [|exact closeContext_quiet].
  apply liveIn_alterAt in H; [|exact closeContext_quiet].
  apply liveIn_alterAt in H; [|exact disconnectNode_quiet].
  apply liveIn_alterAt in H; [|exact disconnectNode_quiet].
  apply liveIn_alterAt in H; [|exact stopTracks_quiet].
  split.
  - apply liveIn_alterAt in H; [exact H | exact closeRequest_quiet].
  - intros Href. rewrite Href in H. destruct H as [env H]. cbn in H.
    rewrite lookup_alter_eq in H.
    destruct (objects (browser w) !! session) as [o|]; [|discriminate].
    cbn in H. injection H as H. exact (closeRequest_not_live _ _ H).
Qed.

Lemma stop_settled w :
  (forall session, live w session -> sessionPromiseRef (refs w) = Some session) ->
  awaitingMicrophone w = [] ->
  settled (stopConversation w).
Proof.
  intros Hlive Hnone.
  destruct (stop_effect w) as (Hs & Hr & Ho & _ & _ & Ha).
  unfold settled, live. rewrite Hs, Hr, Ho, Ha, Hnone. cbn.
  split; [|split; [congruence | reflexivity]].
  intros session H. apply released_live in H as [H Hne].
  elim Hne. apply Hlive, H.
Qed.

Lemma live_same_objects w w' session :
  objects (browser w') = objects (browser w) -> live w' session -> live w session.
Proof. unfold live. intros ->. auto. Qed.

Lemma update_live id f w session :
  quietOnSessions f -> live (update id f w) session -> live w session.
Proof. intros Hf H. exact (liveIn_alter f id _ session Hf H). Qed.

Lemma sources_stop_live sources w session :
  live (sources_stop sources w) session -> live w session.
Proof.
  intros [env H]. exists env.
  destruct (sources_stop_lookup sources w session) as [Hin Hout].
  destruct (decide (session ∈ sources)) as [Hs|Hs].
  - rewrite (Hin Hs) in H.
    destruct (objects (browser w) !! session) as [o|]; [|discriminate].
    cbn in H. injection H as H. rewrite (stopSource_quiet _ _ H). reflexivity.
  - rewrite (Hout Hs) in H. exact H.
Qed.

Lemma onopen_view w :
  connectionState (state (onopen w)) = connected
  /\ sessionPromiseRef (refs (onopen w)) = sessionPromiseRef (refs w)
  /\ awaitingMicrophone (onopen w) = awaitingMicrophone w
  /\ forall session, live (onopen w) session -> live w session.
Proof.
  unfold onopen. cbn.
  destruct (streamRef (refs w)) as [stream|]; cbn.
  - repeat split. intros session H.
    apply update_live in H; [|exact connectNode_quiet].
    apply update_live in H; [|exact connectNode_quiet].
    apply liveIn_insert in H as [[_ [env He]]|H]; [discriminate He|].
    apply liveIn_insert in H as [[_ [env He]]|H]; [discriminate He|].
    apply liveIn_insert in H as [[_ [env He]]|H]; [discriminate He|].
    exact H.
  - repeat split. intros session H.
    apply liveIn_insert in H as [[_ [env He]]|H]; [discriminate He|].
    exact H.
Qed.

(** The rest of a start either makes the one session the ref then holds,
    or fails into state [error] and makes none. *)
Lemma resume_view env outcome w :
  let w' := startConversation_resume env outcome w in
  awaitingMicrophone w' = awaitingMicrophone w
  /\ (outcome = connectReturns
        /\ connectionState (state w') = connectionState (state w)
        /\ (exists session, sessionPromiseRef (refs w') = Some session
              /\ forall s, live w' s -> s = session \/ live w s)
      \/ outcome <> connectReturns
        /\ connectionState (state w') = error
        /\ sessionPromiseRef (refs w') = sessionPromiseRef (refs w)
        /\ forall s, live w' s -> live w s).
Proof.
  destruct outcome; cbn; (split; [reflexivity|]);
    try (right; split; [discriminate|]; split; [reflexivity|];
         split; [reflexivity|]; intros s H;
         repeat (apply liveIn_insert in H as [[_ [e He]]|H]; [discriminate He|]);
         exact H).
  left. split; [reflexivity|]. split; [reflexivity|].
  eexists. split; [reflexivity|]. intros s H.
  apply liveIn_insert in H as [[Hs _]|H]; [left; exact Hs|]. right.
  repeat (apply liveIn_insert in H as [[_ [e He]]|H]; [discriminate He|]).
  exact H.
Qed.

(** ** The message handler *)

Lemma transcript_refs env m w : refs (onmessage_transcript env m w) = refs w.
Proof.
  unfold onmessage_transcript.
  destruct (inputTranscription m), (outputTranscription m), (turnComplete m); simpl;
    try reflexivity;
    match goal with |- context [if ?b then _ else _] => destruct b end; reflexivity.
Qed.

Lemma transcript_browser env m w : browser (onmessage_transcript env m w) = browser w.
Proof.
  unfold onmessage_transcript.
  destruct (inputTranscription m), (outputTranscription m), (turnComplete m); simpl;
    try reflexivity;
    match goal with |- context [if ?b then _ else _] => destruct b end; reflexivity.
Qed.

Lemma transcript_connectionState env m w :
  connectionState (state (onmessage_transcript env m w)) = connectionState (state w)
  /\ awaitingMicrophone (onmessage_transcript env m w) = awaitingMicrophone w.
Proof.
  unfold onmessage_transcript.
  destruct (inputTranscription m), (outputTranscription m), (turnComplete m); cbn;
    try (split; reflexivity);
    match goal with |- context [if ?b then _ else _] => destruct b end;
    split; reflexivity.
Qed.

(** What a turn-complete message does to the transcript: the turn is made
    of the texts the closure captured and the fragments of this very
    message, and is put behind the history the closure captured. *)
Lemma turnComplete_effect env m w :
  turnComplete m = true ->
  let fullInput :=
    cl_currentInputTranscription env +:+ default "" (inputTranscription m) in
  let fullOutput :=
    cl_currentOutputTranscription env +:+ default "" (outputTranscription m) in
  let w' := onmessage_transcript env m w in
  history w'
  = (if JsString.hasInk fullInput || JsString.hasInk fullOutput
     then (cl_history env ++ [{| user := fullInput; model := fullOutput |}])%list
     else history w)
  /\ currentInputTranscription (state w') = ""
  /\ currentOutputTranscription (state w') = "".
Proof.
  intros Ht. cbv zeta. unfold onmessage_transcript. rewrite Ht.
  rewrite !trim_truthy.
  destruct (JsString.hasInk _ || JsString.hasInk _);
    destruct (inputTranscription m), (outputTranscription m); repeat split.
Qed.

Lemma interrupted_outputAudioContextRef m w :
  outputAudioContextRef (refs (onmessage_interrupted m w))
  = outputAudioContextRef (refs w).
Proof. unfold onmessage_interrupted. destruct (interrupted m); reflexivity. Qed.

Lemma interrupted_effect m w :
  interrupted m = true ->
  let w' := onmessage_interrupted m w in
  sourcesRef (refs w') = ∅
  /\ nextStartTimeRef (refs w') = 0
  /\ nextId (browser w') = nextId (browser w)
  /\ forall source, source ∈ sourcesRef (refs w) ->
       objects (browser w') !! source = stopSource <$> objects (browser w) !! source.
Proof.
  intros Hi. unfold onmessage_interrupted. rewrite Hi. cbn.
  repeat split. intros source Hs. apply sources_stop_member. exact Hs.
Qed.

Lemma clampedSum_snoc cursor units u :
  clampedSum cursor (units ++ [u])
  = N.max (clampedSum cursor units) (fst u) + snd u.
Proof. unfold clampedSum. rewrite fold_left_app. reflexivity. Qed.

(** Late units only push the cursor further than the plain sum. *)
Lemma clampedSum_ge cursor units :
  cursor + sumOfDurations units <= clampedSum cursor units.
Proof.
  unfold clampedSum, sumOfDurations.
  revert cursor; induction units as [|u units IH]; intros cursor; cbn.
  - lia.
  - specialize (IH (N.max cursor (fst u) + snd u)). lia.
Qed.

(** With every unit on time the cursor is the plain sum. *)
Lemma clampedSum_onTime cursor units :
  onTime cursor units -> clampedSum cursor units = cursor + sumOfDurations units.
Proof.
  unfold clampedSum, sumOfDurations.
  revert cursor; induction units as [|u units IH]; intros cursor; cbn.
  - lia.
  - intros [Hu Hrest]. rewrite N.max_l by exact Hu.
    rewrite (IH _ Hrest). lia.
Qed.

Section Handler.

Variable decodeAudioData : string -> option N.

(** ** Playback *)

(** One unit: the source made for it, where the ids go, and, when the
    message carries no interruption, the set and the cursor. *)
Lemma onmessage_unit env now m w d ctx :
  outputAudioContextRef (refs w) = Some ctx ->
  carriesUnit decodeAudioData m d ->
  let w' := onmessage decodeAudioData env now m w in
  let start := N.max (nextStartTimeRef (refs w)) now in
  objects (browser w') !! nextId (browser w)
    = Some (AudioBufferSourceNode start d (interrupted m))
  /\ nextId (browser w') = N.succ (nextId (browser w))
  /\ (interrupted m = false ->
        sourcesRef (refs w') = {[nextId (browser w)]} ∪ sourcesRef (refs w)
        /\ nextStartTimeRef (refs w') = start + d).
Proof.
  intros Hctx (b & Hb & Ht & Hd). cbv zeta.
  unfold onmessage, onmessage_audio. rewrite Hb, Hctx, Ht. cbn. rewrite Hd. cbn.
  unfold onmessage_interrupted.
  rewrite transcript_refs.
  destruct (interrupted m) eqn:Hi; cbn.
  - rewrite sources_stop_member
      by (apply elem_of_union_l, elem_of_singleton; reflexivity).
    rewrite transcript_browser. cbn. rewrite lookup_insert_eq. cbn.
    split; [reflexivity|]. split; [| discriminate].
    unfold sources_stop; cbn. rewrite transcript_browser. reflexivity.
  - rewrite ?transcript_browser, ?transcript_refs. cbn. rewrite lookup_insert_eq.
    split; [reflexivity|]. split; [reflexivity|]. intros _. split; reflexivity.
Qed.

Lemma audio_outputAudioContextRef now m w :
  outputAudioContextRef
    (refs (match onmessage_audio decodeAudioData now m w with
           | inl w' | inr w' => w' end))
  = outputAudioContextRef (refs w).
Proof.
  unfold onmessage_audio.
  destruct (base64AudioOf m) as [[b|]|]; try reflexivity.
  destruct (outputAudioContextRef (refs w)) eqn:Hctx; [|exact Hctx].
  destruct (JsString.truthy b); [|exact Hctx].
  destruct (decodeAudioData b); exact Hctx.
Qed.

(** No message changes the output context the component holds. *)
Lemma onmessage_outputAudioContextRef env now m w :
  outputAudioContextRef (refs (onmessage decodeAudioData env now m w))
  = outputAudioContextRef (refs w).
Proof.
  unfold onmessage.
  pose proof (audio_outputAudioContextRef now m w) as H.
  destruct (onmessage_audio decodeAudioData now m w) as [w'|w']; [|exact H].
  rewrite interrupted_outputAudioContextRef, transcript_refs. exact H.
Qed.

Lemma onmessages_outputAudioContextRef env messages w :
  outputAudioContextRef (refs (onmessages decodeAudioData env messages w))
  = outputAudioContextRef (refs w).
Proof.
  unfold onmessages.
  revert w; induction messages as [|m messages IH]; intros w; [reflexivity|].
  cbn. rewrite IH. apply onmessage_outputAudioContextRef.
Qed.

Lemma onmessages_snoc env messages m w :
  onmessages decodeAudioData env (messages ++ [m]) w
  = onmessage decodeAudioData env (fst m) (snd m)
      (onmessages decodeAudioData env messages w).
Proof. unfold onmessages. rewrite fold_left_app. reflexivity. Qed.

Lemma unitOf_Some m u :
  unitOf decodeAudioData m = Some u ->
  exists duration,
    u = (fst m, duration) /\ carriesUnit decodeAudioData (snd m) duration.
Proof.
  unfold unitOf, carriesUnit.
  destruct (base64AudioOf (snd m)) as [[b|]|]; try discriminate.
  destruct (JsString.truthy b) eqn:Ht; [|discriminate].
  destruct (decodeAudioData b) as [d|] eqn:Hd; [|discriminate].
  intros [= <-]. exists d. split; [reflexivity|]. exists b. auto.
Qed.

(** A steady message that brings no unit leaves the refs and the browser
    objects alone: playback goes on as scheduled. *)
Lemma onmessage_no_unit env m w :
  steady decodeAudioData m ->
  unitOf decodeAudioData m = None ->
  refs (onmessage decodeAudioData env (fst m) (snd m) w) = refs w
  /\ browser (onmessage decodeAudioData env (fst m) (snd m) w) = browser w.
Proof.
  intros [Hi Hd] Hu.
  assert (Haudio : onmessage_audio decodeAudioData (fst m) (snd m) w = inl w).
  { unfold decodable in Hd. unfold unitOf in Hu. unfold onmessage_audio.
    destruct (base64AudioOf (snd m)) as [[b|]|]; [| reflexivity | contradiction].
    destruct (JsString.truthy b) eqn:Ht.
    - destruct (Hd eq_refl) as [d Hdec]. rewrite Hdec in Hu. discriminate Hu.
    - destruct (outputAudioContextRef (refs w)); reflexivity. }
  unfold onmessage. rewrite Haudio. unfold onmessage_interrupted. rewrite Hi.
  split; [apply transcript_refs | apply transcript_browser].
Qed.

Lemma playedUnits_snoc messages m :
  playedUnits decodeAudioData (messages ++ [m])
  = (playedUnits decodeAudioData messages
     ++ match unitOf decodeAudioData m with Some u => [u] | None => [] end)%list.
Proof.
  unfold playedUnits. rewrite omap_app. cbn.
  destruct (unitOf decodeAudioData m); reflexivity.
Qed.

(** After a steady run of messages the cursor is the clamped sum of the
    units they brought. *)
Lemma onmessages_cursor env messages w ctx :
  outputAudioContextRef (refs w) = Some ctx ->
  Forall (steady decodeAudioData) messages ->
  nextStartTimeRef (refs (onmessages decodeAudioData env messages w))
  = clampedSum (nextStartTimeRef (refs w)) (playedUnits decodeAudioData messages).
Proof.
  intros Hctx. induction messages as [|m messages IH] using rev_ind; intros Hall.
  - reflexivity.
  - apply Forall_app in Hall as [Hall Hm]. apply Forall_inv in Hm.
    rewrite onmessages_snoc, playedUnits_snoc.
    destruct (unitOf decodeAudioData m) as [u|] eqn:Hu.
    + destruct (unitOf_Some m u Hu) as (d & -> & Hd).
      rewrite clampedSum_snoc. cbn [fst snd]. rewrite <- (IH Hall).
      assert (Hc : outputAudioContextRef
                     (refs (onmessages decodeAudioData env messages w)) = Some ctx)
        by (rewrite onmessages_outputAudioContextRef; exact Hctx).
      destruct (onmessage_unit env (fst m) (snd m) _ d ctx Hc Hd) as (_ & _ & H).
      apply (H (proj1 Hm)).
    + rewrite app_nil_r, <- (IH Hall).
      destruct (onmessage_no_unit env m
                  (onmessages decodeAudioData env messages w) Hm Hu) as [-> _].
      reflexivity.
Qed.

(** Between two units with nothing but messages without a unit in
    between, the units played are the same. *)
Lemma playedUnits_gap messages k gap :
  (forall i mi, (k < i < S k + gap)%nat -> messages !! i = Some mi ->
                unitOf decodeAudioData mi = None) ->
  playedUnits decodeAudioData (take (S k + gap) messages)
  = playedUnits decodeAudioData (take (S k) messages).
Proof.
  induction gap as [|gap IH]; intros Hgap.
  - rewrite Nat.add_0_r. reflexivity.
  - replace (S k + S gap)%nat with (S (S k + gap)) by lia.
    destruct (messages !! (S k + gap)%nat) as [mi|] eqn:Hi.
    + rewrite (take_S_r _ _ _ Hi), playedUnits_snoc.
      rewrite (Hgap (S k + gap)%nat mi) by (lia || exact Hi).
      rewrite app_nil_r. apply IH. intros i mi' Hr. apply Hgap. lia.
    + apply lookup_ge_None in Hi.
      rewrite !(take_ge messages) by lia.
      rewrite <- (take_ge messages (S k + gap)) at 1 by lia.
      apply IH. intros i mi' Hr. apply Hgap. lia.
Qed.

(** Unit [k] of a steady run of messages: where it is started, that it
    joins the set, and where it leaves the cursor. *)
Lemma unit_scheduled env w messages ctx k now m duration :
  outputAudioContextRef (refs w) = Some ctx ->
  Forall (steady decodeAudioData) messages ->
  messages !! k = Some (now, m) ->
  carriesUnit decodeAudioData m duration ->
  let before := onmessages decodeAudioData env (take k messages) w in
  let after := onmessages decodeAudioData env (take (S k) messages) w in
  let start := N.max (nextStartTimeRef (refs before)) now in
  objects (browser after) !! nextId (browser before)
    = Some (AudioBufferSourceNode start duration false)
  /\ nextId (browser before) ∈ sourcesRef (refs after)
  /\ nextStartTimeRef (refs after) = start + duration.
Proof.
  intros Hctx Hall Hk Hd. cbv zeta.
  assert (Hm : steady decodeAudioData (now, m))
    by (eapply Forall_lookup_1; [exact Hall | exact Hk]).
  destruct Hm as [Hi _]. cbn in Hi.
  rewrite (take_S_r _ _ _ Hk), onmessages_snoc. cbn [fst snd].
  set (before := onmessages decodeAudioData env (take k messages) w).
  assert (Hc : outputAudioContextRef (refs before) = Some ctx)
    by (unfold before; rewrite onmessages_outputAudioContextRef; exact Hctx).
  destruct (onmessage_unit env now m before duration ctx Hc Hd) as (Hobj & _ & H).
  destruct (H Hi) as [Hset Hcur]. rewrite Hi in Hobj.
  split; [exact Hobj|].
  split; [rewrite Hset; apply elem_of_union_l, elem_of_singleton; reflexivity|].
  exact Hcur.
Qed.

(** No event but a message moves the cursor. *)
Lemma step_cursor w e :
  isMessage e = false ->
  nextStartTimeRef (refs (step decodeAudioData w e)) = nextStartTimeRef (refs w).
Proof.
  assert (Hstop : forall v,
            nextStartTimeRef (refs (stopConversation v)) = nextStartTimeRef (refs v)).
  { intros v. destruct (stop_effect v) as (_ & -> & _). reflexivity. }
  destruct e as [| call outcome | session | session now m | session | session
                 | source |]; cbn [isMessage step]; try discriminate; intros _.
  - unfold onClick. destruct (bool_decide _); [apply Hstop|].
    unfold startConversation. destruct (cl_connectionState (render w)); reflexivity.
  - destruct (awaitingMicrophone w !! call); [|reflexivity].
    destruct outcome; reflexivity.
  - destruct (closureOf session w); [|reflexivity].
    unfold onopen. cbn. destruct (streamRef (refs w)); reflexivity.
  - destruct (closureOf session w); [|reflexivity].
    unfold onerror. rewrite Hstop. reflexivity.
  - destruct (closureOf session w); [|reflexivity].
    unfold onclose. rewrite Hstop. reflexivity.
  - reflexivity.
  - apply Hstop.
Qed.

Lemma run_cursor w events :
  Forall (fun e => isMessage e = false) events ->
  nextStartTimeRef (refs (run decodeAudioData w events)) = nextStartTimeRef (refs w).
Proof.
  unfold run. intros Hall. revert w.
  induction Hall as [|e events He _ IH]; intros w; [reflexivity|].
  cbn. rewrite IH. apply step_cursor, He.
Qed.

(** C1, what the code does. Let a session deliver messages, none with an
    interruption signal and none on which the audio part throws, to a
    component that holds an output context; some bring a decoded audio
    unit, the others (transcript fragments, turn completions) none. The
    unit of message [k], met at clock [now], is started at
    [max cursor now], where [cursor] is the cursor the messages before it
    left; it joins the scheduled set, and the cursor moves on by exactly
    its duration. No unit starts in the past. The cursor before the unit
    is the cursor the run began with ([nextStartTimeRef] of [w]) and the
    durations of the units before it summed on to it, each clamped to
    the clock it met ([clampedSum]): at least the plain sum, and the
    plain sum when none of them was late. The next unit, with only
    messages without a unit in between, is started at the maximum of the
    end of this one and its own clock. A message without a unit leaves
    the cursor, the set and the browser objects alone.

    Where the claim fails is the cursor a run begins with. It is zero
    for every conversation up to the first message after the mounting of
    the component; but no event other than a message moves the cursor,
    so a stop and the next start leave it where the playback of the
    conversation before had brought it, and the first unit of the next
    conversation is started at the maximum of that old cursor and its
    clock, not at its clock. *)
Theorem units_play_back_to_back env w messages ctx :
  outputAudioContextRef (refs w) = Some ctx ->
  Forall (steady decodeAudioData) messages ->
  (forall k now m duration,
      messages !! k = Some (now, m) ->
      carriesUnit decodeAudioData m duration ->
      let before := onmessages decodeAudioData env (take k messages) w in
      let after := onmessages decodeAudioData env (take (S k) messages) w in
      let earlier := playedUnits decodeAudioData (take k messages) in
      let cursor := nextStartTimeRef (refs before) in
      let start := N.max cursor now in
      objects (browser after) !! nextId (browser before)
        = Some (AudioBufferSourceNode start duration false)
      /\ nextId (browser before) ∈ sourcesRef (refs after)
      /\ nextStartTimeRef (refs after) = start + duration
      /\ now <= start
      /\ cursor = clampedSum (nextStartTimeRef (refs w)) earlier
      /\ nextStartTimeRef (refs w) + sumOfDurations earlier <= cursor
      /\ (onTime (nextStartTimeRef (refs w)) earlier ->
            cursor = nextStartTimeRef (refs w) + sumOfDurations earlier)
      /\ (forall gap now' m' duration',
            messages !! (S k + gap)%nat = Some (now', m') ->
            carriesUnit decodeAudioData m' duration' ->
            (forall i mi, (k < i < S k + gap)%nat -> messages !! i = Some mi ->
                          unitOf decodeAudioData mi = None) ->
            scheduledStart
              (nextId (browser (onmessages decodeAudioData env
                                  (take (S k + gap) messages) w)))
              (onmessages decodeAudioData env (take (S (S k + gap)) messages) w)
            = Some (N.max (start + duration) now')))
  /\ (forall k mk,
        messages !! k = Some mk ->
        unitOf decodeAudioData mk = None ->
        let before := onmessages decodeAudioData env (take k messages) w in
        let after := onmessages decodeAudioData env (take (S k) messages) w in
        refs after = refs before /\ browser after = browser before)
  /\ (forall transcript events,
        Forall (fun e => isMessage e = false) events ->
        nextStartTimeRef (refs (run decodeAudioData (initialWorld transcript) events))
        = 0)
  /\ (forall events,
        Forall (fun e => isMessage e = false) events ->
        let left := onmessages decodeAudioData env messages w in
        let w' := run decodeAudioData left events in
        nextStartTimeRef (refs left)
        = clampedSum (nextStartTimeRef (refs w))
            (playedUnits decodeAudioData messages)
        /\ nextStartTimeRef (refs w') = nextStartTimeRef (refs left)
        /\ forall session env' now m context duration,
             closureOf session w' = Some env' ->
             outputAudioContextRef (refs w') = Some context ->
             carriesUnit decodeAudioData m duration ->
             scheduledStart (nextId (browser w'))
               (step decodeAudioData w' (SessionMessage session now m))
             = Some (N.max (nextStartTimeRef (refs left)) now)).
Proof.
  intros Hctx Hall. split; [|split; [|split]].
  - intros k now m duration Hk Hd. cbv zeta.
    destruct (unit_scheduled env w messages ctx k now m duration Hctx Hall Hk Hd)
      as (Hobj & Hin & Hcur).
    assert (Hsum : forall j,
              nextStartTimeRef
                (refs (onmessages decodeAudioData env (take j messages) w))
              = clampedSum (nextStartTimeRef (refs w))
                  (playedUnits decodeAudioData (take j messages))).
    { intros j. apply (onmessages_cursor env _ w ctx Hctx). apply Forall_take, Hall. }
    split; [exact Hobj|]. split; [exact Hin|]. split; [exact Hcur|].
    split; [lia|]. split; [apply Hsum|].
    split; [rewrite Hsum; apply clampedSum_ge|].
    split; [intros Hon; rewrite Hsum; apply clampedSum_onTime, Hon|].
    intros gap now' m' duration' Hj Hd' Hgap.
    destruct (unit_scheduled env w messages ctx (S k + gap) now' m' duration'
                Hctx Hall Hj Hd') as (Hobj' & _).
    unfold scheduledStart. rewrite Hobj'. f_equal. f_equal.
    rewrite (Hsum (S k + gap)%nat), (playedUnits_gap messages k gap Hgap).
    rewrite <- (Hsum (S k)). exact Hcur.
  - intros k mk Hk Hu. cbv zeta.
    rewrite (take_S_r _ _ _ Hk), onmessages_snoc.
    apply onmessage_no_unit; [|exact Hu].
    eapply Forall_lookup_1; [exact Hall | exact Hk].
  - intros transcript events Hev. rewrite run_cursor by exact Hev. reflexivity.
  - intros events Hev. cbv zeta.
    split; [apply (onmessages_cursor env _ w ctx Hctx Hall)|].
    split; [apply run_cursor, Hev|].
    intros session env' now m context duration Hcl Hc Hd.
    cbn [step]. rewrite Hcl.
    destruct (onmessage_unit env' now m _ duration context Hc Hd) as (Hobj & _).
    unfold scheduledStart. rewrite Hobj, run_cursor by exact Hev. reflexivity.
Qed.

Lemma onmessage_quiet env now m w :
  carriesNoAudio m ->
  onmessage decodeAudioData env now m w
  = onmessage_interrupted m (onmessage_transcript env m w).
Proof.
  intros H. unfold onmessage, onmessage_audio. rewrite H. reflexivity.
Qed.

Lemma quiet_keeps_silence env now m w :
  carriesNoAudio m ->
  nextStartTimeRef (refs w) = 0 ->
  nextStartTimeRef (refs (onmessage decodeAudioData env now m w)) = 0.
Proof.
  intros H Hc. rewrite (onmessage_quiet _ _ _ _ H).
  unfold onmessage_interrupted. destruct (interrupted m); [reflexivity|].
  rewrite transcript_refs. exact Hc.
Qed.

Lemma quiet_messages_keep_silence env quiet w :
  Forall (fun q => carriesNoAudio (snd q)) quiet ->
  nextStartTimeRef (refs w) = 0 ->
  nextStartTimeRef (refs (onmessages decodeAudioData env quiet w)) = 0.
Proof.
  unfold onmessages. intros H. revert w.
  induction H as [|q quiet Hq _ IH]; intros w Hc; [exact Hc|].
  cbn. apply IH. apply quiet_keeps_silence; assumption.
Qed.

(** The audio part drops no handle from the set and leaves every source
    a source. *)
Lemma audio_keeps_sources now m w w1 :
  onmessage_audio decodeAudioData now m w = inl w1 ->
  sourcesRef (refs w) ⊆ sourcesRef (refs w1)
  /\ forall id when duration stopped,
       objects (browser w) !! id = Some (AudioBufferSourceNode when duration stopped) ->
       exists when' duration' stopped',
         objects (browser w1) !! id
         = Some (AudioBufferSourceNode when' duration' stopped').
Proof.
  unfold onmessage_audio.
  destruct (base64AudioOf m) as [[b|]|]; [| |discriminate].
  - destruct (outputAudioContextRef (refs w)).
    + destruct (JsString.truthy b).
      * destruct (decodeAudioData b) as [d|]; [|discriminate].
        cbn. intros [= <-]. cbn. split; [apply union_subseteq_r|].
        intros id when duration stopped H.
        destruct (decide (nextId (browser w) = id)) as [<-|Hne].
        -- rewrite lookup_insert_eq. eauto.
        -- rewrite lookup_insert_ne by exact Hne. eauto.
      * intros [= <-]. split; [reflexivity| eauto].
    + intros [= <-]. split; [reflexivity| eauto].
  - intros [= <-]. split; [reflexivity| eauto].
Qed.

(** What the audio part leaves behind when it ends with an exception, and
    the two ways it comes to that. *)
Lemma audio_throws now m w w1 :
  onmessage_audio decodeAudioData now m w = inr w1 ->
  sourcesRef (refs w1) = sourcesRef (refs w)
  /\ browser w1 = browser w
  /\ nextStartTimeRef (refs w) <= nextStartTimeRef (refs w1)
  /\ (modelTurn m = Some None
      \/ exists base64Audio context,
           base64AudioOf m = Some (Some base64Audio)
           /\ JsString.truthy base64Audio = true
           /\ outputAudioContextRef (refs w) = Some context
           /\ decodeAudioData base64Audio = None).
Proof.
  intros H. unfold onmessage_audio in H.
  destruct (base64AudioOf m) as [[b|]|] eqn:Hb.
  - destruct (outputAudioContextRef (refs w)) as [context|] eqn:Hctx;
      [|discriminate H].
    destruct (JsString.truthy b) eqn:Ht; [|discriminate H].
    destruct (decodeAudioData b) as [d|] eqn:Hd; [discriminate H|].
    injection H as <-. cbn. split; [reflexivity|]. split; [reflexivity|].
    split; [lia|]. right. exists b, context. auto.
  - discriminate H.
  - injection H as <-. split; [reflexivity|]. split; [reflexivity|].
    split; [lia|]. left. unfold base64AudioOf in Hb.
    destruct (modelTurn m) as [[parts|]|]; try discriminate Hb. reflexivity.
Qed.

(** C2, what the code does. When a message carries the interruption
    marker and its handler runs through, the scheduled set is empty and
    the cursor zero afterwards, every source that was in the set has been
    stopped, and the next unit to arrive, after any messages without
    audio, from whichever session, is started at the clock reading it
    meets, not at the cursor from before the interruption. But the
    interruption is the last part of the handler, and the audio part
    before it can throw: a model turn without parts fails at line 113 and
    leaves the world as it was; a payload that does not decode fails at
    line 117, with the status set to Speaking and the cursor moved up to
    the clock. The handler ends there, so the interruption the same
    message carries is lost: the set is as before, no source is stopped
    and the cursor is not reset. *)
Theorem interruption_clears_playback env now m w :
  interrupted m = true ->
  let w' := onmessage decodeAudioData env now m w in
  (runsThrough decodeAudioData now m w ->
     sourcesRef (refs w') = ∅
     /\ nextStartTimeRef (refs w') = 0
     /\ (forall source when duration stopped,
           source ∈ sourcesRef (refs w) ->
           objects (browser w) !! source
             = Some (AudioBufferSourceNode when duration stopped) ->
           forceStopped source w')
     /\ (forall env' quiet env'' now' m' duration context,
           Forall (fun q => carriesNoAudio (snd q)) quiet ->
           outputAudioContextRef (refs w) = Some context ->
           carriesUnit decodeAudioData m' duration ->
           let w'' := onmessages decodeAudioData env' quiet w' in
           scheduledStart (nextId (browser w''))
             (onmessage decodeAudioData env'' now' m' w'') = Some now'))
  /\ (modelTurn m = Some None -> w' = w)
  /\ (forall base64Audio context,
        base64AudioOf m = Some (Some base64Audio) ->
        JsString.truthy base64Audio = true ->
        outputAudioContextRef (refs w) = Some context ->
        decodeAudioData base64Audio = None ->
        w' = set_nextStartTimeRef (N.max (nextStartTimeRef (refs w)) now)
               (setVoiceStatus Speaking w))
  /\ (~ runsThrough decodeAudioData now m w ->
        sourcesRef (refs w') = sourcesRef (refs w)
        /\ browser w' = browser w
        /\ nextStartTimeRef (refs w) <= nextStartTimeRef (refs w')
        /\ (modelTurn m = Some None
            \/ exists base64Audio context,
                 base64AudioOf m = Some (Some base64Audio)
                 /\ JsString.truthy base64Audio = true
                 /\ outputAudioContextRef (refs w) = Some context
                 /\ decodeAudioData base64Audio = None)).
Proof.
  intros Hi. cbv zeta. split; [|split; [|split]].
  - intros [w1 Hw1].
    assert (Hw' : onmessage decodeAudioData env now m w
                  = onmessage_interrupted m (onmessage_transcript env m w1))
      by (unfold onmessage; rewrite Hw1; reflexivity).
    destruct (interrupted_effect m (onmessage_transcript env m w1) Hi)
      as (Hset & Hcur & _ & Hstop).
    rewrite <- Hw' in Hset, Hcur, Hstop.
    destruct (audio_keeps_sources now m w w1 Hw1) as [Hsub Hkeep].
    split; [exact Hset|]. split; [exact Hcur|]. split.
    + intros source when duration stopped Hin Hobj.
      destruct (Hkeep _ _ _ _ Hobj) as (when' & duration' & stopped' & Hobj1).
      exists when', duration'. rewrite Hstop.
      * rewrite transcript_browser, Hobj1. reflexivity.
      * rewrite transcript_refs. apply Hsub, Hin.
    + intros env' quiet env'' now' m' duration context Hquiet Hctx Hunit. cbv zeta.
      set (w'' := onmessages decodeAudioData env' quiet
                    (onmessage decodeAudioData env now m w)).
      assert (Hctx'' : outputAudioContextRef (refs w'') = Some context).
      { unfold w''. rewrite onmessages_outputAudioContextRef,
          onmessage_outputAudioContextRef. exact Hctx. }
      assert (Hcur'' : nextStartTimeRef (refs w'') = 0)
        by (apply quiet_messages_keep_silence; assumption).
      destruct (onmessage_unit env'' now' m' w'' duration context Hctx'' Hunit)
        as (Hobj & _).
      unfold scheduledStart. rewrite Hobj, Hcur''. f_equal. lia.
  - intros Hm. unfold onmessage, onmessage_audio, base64AudioOf. rewrite Hm.
    reflexivity.
  - intros b context Hb Ht Hctx Hd.
    unfold onmessage, onmessage_audio. rewrite Hb, Hctx, Ht. cbn. rewrite Hd.
    reflexivity.
  - intros Hnot. unfold onmessage.
    destruct (onmessage_audio decodeAudioData now m w) as [w1|w1] eqn:Hw1.
    + elim Hnot. exists w1. exact Hw1.
    + apply (audio_throws now m w w1 Hw1).
Qed.

(** C10, as amended. When one message carries both a decodable audio
    payload and the interruption marker, the audio part runs first: the
    unit is started at the maximum of the cursor from before the
    interruption and the clock, joins the set and moves the cursor on.
    The interruption part runs after it, so the same unit is stopped, the
    set is empty and the cursor zero in the end: the unit is never left
    playing. Its start is the cursor from before the interruption when
    that is ahead of the clock, and the clock reading otherwise. *)
Theorem unit_with_interruption env now m w context duration :
  outputAudioContextRef (refs w) = Some context ->
  carriesUnit decodeAudioData m duration ->
  interrupted m = true ->
  let source := nextId (browser w) in
  let cursor := nextStartTimeRef (refs w) in
  let start := N.max cursor now in
  let w' := onmessage decodeAudioData env now m w in
  (exists w1,
      onmessage_audio decodeAudioData now m w = inl w1
      /\ objects (browser w1) !! source
         = Some (AudioBufferSourceNode start duration false)
      /\ source ∈ sourcesRef (refs w1)
      /\ nextStartTimeRef (refs w1) = start + duration
      /\ w' = onmessage_interrupted m (onmessage_transcript env m w1))
  /\ objects (browser w') !! source
     = Some (AudioBufferSourceNode start duration true)
  /\ sourcesRef (refs w') = ∅
  /\ nextStartTimeRef (refs w') = 0
  /\ (now < cursor ->
        scheduledStart source w' = Some cursor
        /\ scheduledStart source w' <> Some now)
  /\ (cursor <= now -> scheduledStart source w' = Some now).
Proof.
  intros Hctx Hunit Hi. cbv zeta.
  destruct (onmessage_unit env now m w duration context Hctx Hunit)
    as (Hobj & _ & _).
  rewrite Hi in Hobj.
  destruct Hunit as (b & Hb & Ht & Hd).
  assert (Haudio : exists w1,
            onmessage_audio decodeAudioData now m w = inl w1
            /\ objects (browser w1) !! nextId (browser w)
               = Some (AudioBufferSourceNode
                         (N.max (nextStartTimeRef (refs w)) now) duration false)
            /\ nextId (browser w) ∈ sourcesRef (refs w1)
            /\ nextStartTimeRef (refs w1)
               = N.max (nextStartTimeRef (refs w)) now + duration).
  { unfold onmessage_audio. rewrite Hb, Hctx, Ht. cbn. rewrite Hd. cbn.
    eexists. split; [reflexivity|]. cbn. rewrite lookup_insert_eq.
    split; [reflexivity|].
    split; [apply elem_of_union_l, elem_of_singleton|]; reflexivity. }
  destruct Haudio as (w1 & Hw1 & Hobj1 & Hin1 & Hcur1).
  assert (Hw' : onmessage decodeAudioData env now m w
                = onmessage_interrupted m (onmessage_transcript env m w1))
    by (unfold onmessage; rewrite Hw1; reflexivity).
  destruct (interrupted_effect m (onmessage_transcript env m w1) Hi)
    as (Hset & Hcur & _ & _).
  rewrite <- Hw' in Hset, Hcur.
  split; [exists w1; repeat split; assumption|].
  split; [exact Hobj|]. split; [exact Hset|]. split; [exact Hcur|].
  unfold scheduledStart. rewrite Hobj. split.
  - intros Hlt. rewrite N.max_l by lia. split; [reflexivity|].
    intros [= H]. lia.
  - intros Hle. rewrite N.max_r by exact Hle. reflexivity.
Qed.

(** ** Start-up failures *)




(** ** One session at a time *)

Lemma audio_view now m w :
  let w1 := match onmessage_audio decodeAudioData now m w with
            | inl x | inr x => x end in
  connectionState (state w1) = connectionState (state w)
  /\ sessionPromiseRef (refs w1) = sessionPromiseRef (refs w)
  /\ awaitingMicrophone w1 = awaitingMicrophone w
  /\ forall session, live w1 session -> live w session.
Proof.
  unfold onmessage_audio.
  destruct (base64AudioOf m) as [[b|]|]; try (repeat split; auto; fail).
  destruct (outputAudioContextRef (refs w)); try (repeat split; auto; fail).
  destruct (JsString.truthy b); try (repeat split; auto; fail).
  destruct (decodeAudioData b); cbn; try (repeat split; auto; fail).
  repeat split. intros session H.
  apply liveIn_insert in H as [[_ [e He]]|H]; [discriminate He | exact H].
Qed.

(** A message makes no session and leaves the connection state, the
    session ref and the waiting calls alone. *)
Lemma onmessage_view env now m w :
  let w' := onmessage decodeAudioData env now m w in
  connectionState (state w') = connectionState (state w)
  /\ sessionPromiseRef (refs w') = sessionPromiseRef (refs w)
  /\ awaitingMicrophone w' = awaitingMicrophone w
  /\ forall session, live w' session -> live w session.
Proof.
  cbv zeta. unfold onmessage.
  pose proof (audio_view now m w) as H. cbv zeta in H.
  destruct (onmessage_audio decodeAudioData now m w) as [w1|w1]; [|exact H].
  destruct H as (Hs & Hr & Ha & Hl).
  destruct (transcript_connectionState env m w1) as [Ts Ta].
  unfold onmessage_interrupted. destruct (interrupted m); cbn.
  - rewrite sources_stop_state, sources_stop_refs, sources_stop_awaiting.
    rewrite Ts, Ta, transcript_refs, Hs, Hr, Ha. repeat split.
    intros session H. apply Hl.
    apply sources_stop_live in H.
    eapply live_same_objects; [|exact H]. rewrite transcript_browser. reflexivity.
  - rewrite Ts, Ta, transcript_refs, Hs, Hr, Ha. repeat split.
    intros session H. apply Hl.
    eapply live_same_objects; [|exact H]. rewrite transcript_browser. reflexivity.
Qed.

(** Every event keeps [settled], provided it is no teardown while a call
    waits for the microphone. *)
Lemma step_settled w e :
  settled w ->
  (awaitingMicrophone w <> [] -> tearsDown w e = false) ->
  settled (step decodeAudioData w e).
Proof.
  intros Hw Hcalm. pose proof Hw as (J1 & J2 & J3).
  assert (Hstop : tearsDown w e = true -> forall w',
            sameResources w' w -> awaitingMicrophone w' = awaitingMicrophone w ->
            settled (stopConversation w')).
  { intros Ht w' [Hr Hb] Ha. apply stop_settled.
    - unfold live. rewrite Hr, Hb. exact J1.
    - rewrite Ha. destruct (awaitingMicrophone w); [reflexivity|].
      rewrite Hcalm in Ht by discriminate. discriminate Ht. }
  destruct e as [| call outcome | session | session now m | session | session
                 | source |]; cbn [step].
  - (* Click *)
    unfold onClick. cbn [tearsDown] in Hstop.
    destruct (bool_decide (connectionState (state w) = connected)) eqn:Hc.
    + apply (Hstop eq_refl); [split|]; reflexivity.
    + destruct (decide (mayStart (connectionState (state w)))) as [Hm|Hm].
      * destruct (startConversation_view (render w) w Hm) as (Hs & Hr & Hb & Ha).
        unfold settled, live. rewrite Hs, Hr, Hb, Ha.
        assert (Hnone : awaitingMicrophone w = []).
        { destruct (awaitingMicrophone w); [reflexivity|].
          destruct J2 as [Hn _]; [discriminate|]. elim (Hn Hm). }
        rewrite Hnone. cbn.
        split; [exact J1|]. split.
        -- intros _. split; [|split; [exact (J3 Hm) | reflexivity]].
           unfold mayStart. intros [H|[H|H]]; discriminate H.
        -- unfold mayStart. intros [H|[H|H]]; discriminate H.
      * rewrite startConversation_noop by exact Hm. exact Hw.
  - (* MicrophoneSettles *)
    destruct (awaitingMicrophone w !! call) as [env|] eqn:Hcall; [|exact Hw].
    destruct J2 as (Hn & Hnone & Hlen);
      [intros Hnil; rewrite Hnil in Hcall; discriminate Hcall|].
    assert (Hrest : delete call (awaitingMicrophone w) = []).
    { destruct (awaitingMicrophone w) as [|x [|y l]]; try discriminate Hlen.
      destruct call; [reflexivity | discriminate Hcall]. }
    rewrite Hrest. set (w0 := set_awaitingMicrophone [] w).
    destruct (resume_view env outcome w0) as [Ha Hview]. cbv zeta in Ha, Hview.
    unfold settled. rewrite Ha.
    change (awaitingMicrophone w0) with (@nil Closure).
    destruct Hview as [(_ & Hs & session & Hr & Hl) | (_ & Hs & Hr & Hl)].
    + rewrite Hs, Hr. split; [|split; [congruence|]].
      * intros s H. apply Hl in H as [->|H]; [reflexivity|].
        apply J1 in H. congruence.
      * intros Hm. elim (Hn Hm).
    + rewrite Hs, Hr. split; [|split; [congruence|]].
      * intros s H. apply Hl in H. apply J1 in H. congruence.
      * intros _. exact Hnone.
  - (* SessionOpen *)
    destruct (closureOf session w); [|exact Hw].
    destruct (onopen_view w) as (Hs & Hr & Ha & Hl).
    unfold settled. rewrite Hs, Hr, Ha.
    split; [intros s H; apply J1, Hl, H|]. split.
    + intros Hp. destruct (J2 Hp) as (_ & Hnone & Hlen).
      split; [|split; assumption].
      unfold mayStart. intros [H|[H|H]]; discriminate H.
    + unfold mayStart. intros [H|[H|H]]; discriminate H.
  - (* SessionMessage *)
    destruct (closureOf session w) as [env|]; [|exact Hw].
    destruct (onmessage_view env now m w) as (Hs & Hr & Ha & Hl).
    unfold settled. rewrite Hs, Hr, Ha.
    split; [intros s H; apply J1, Hl, H|]. split; assumption.
  - (* SessionError *)
    cbn [tearsDown] in Hstop.
    destruct (closureOf session w); [|exact Hw].
    apply (Hstop eq_refl); [split|]; reflexivity.
  - (* SessionClosed *)
    cbn [tearsDown] in Hstop.
    destruct (closureOf session w); [|exact Hw].
    apply (Hstop eq_refl); [split|]; reflexivity.
  - (* SourceEnded *)
    exact Hw.
  - (* Unmount *)
    apply (Hstop eq_refl); [split|]; reflexivity.
Qed.

Lemma initial_settled transcript : settled (initialWorld transcript).
Proof.
  split; [|split].
  - intros session [env H]. cbn in H. rewrite lookup_empty in H. discriminate H.
  - intros H. elim H. reflexivity.
  - reflexivity.
Qed.

Lemma undisturbed_settled events w :
  settled w -> undisturbed decodeAudioData w events ->
  settled (run decodeAudioData w events).
Proof.
  revert w. induction events as [|e events IH]; intros w Hw Hu; [exact Hw|].
  destruct Hu as [Hcalm Hu]. cbn. apply IH; [|exact Hu].
  apply step_settled; assumption.
Qed.

Lemma settled_atMostOneSession w : settled w -> atMostOneSession w.
Proof.
  intros (J1 & _) s1 s2 H1 H2. apply J1 in H1, H2. congruence.
Qed.

(** C8, what the code does. Called in state [connected] or [connecting],
    [startConversation] returns at once and leaves the world as it was;
    it goes on only from [idle], [closed] and [error], and then all it
    does before its [await] is to set the state to [connecting] and wait
    for the microphone: refs and browser objects are as before. In every
    run from the mounting of the component in which no teardown (a stop,
    an error or close of a session, the unmounting) runs while a call of
    [startConversation] is waiting for the microphone, at most one
    session that has not been asked to close exists at any time. But the
    guard does not keep the invariant in every run. When the user stops
    and starts again and the close of the old session lands while the new
    start waits for the microphone, the close handler's teardown sets the
    state to [idle] with the call still waiting; the guard lets the next
    click through, both calls go on to connect, and two sessions are
    live. *)
Theorem start_guard_and_single_session :
  (forall w,
      connectionState (state w) = connected
      \/ connectionState (state w) = connecting ->
      startConversation (render w) w = w)
  /\ (forall w,
        startConversation (render w) w <> w ->
        mayStart (connectionState (state w)))
  /\ (forall w,
        mayStart (connectionState (state w)) ->
        let w' := startConversation (render w) w in
        connectionState (state w') = connecting
        /\ refs w' = refs w
        /\ browser w' = browser w
        /\ awaitingMicrophone w' = (awaitingMicrophone w ++ [render w])%list)
  /\ (forall transcript events,
        undisturbed decodeAudioData (initialWorld transcript) events ->
        atMostOneSession (run decodeAudioData (initialWorld transcript) events))
  /\ (let pending := run decodeAudioData (initialWorld []) (take 5 raceEvents) in
      let closed := step decodeAudioData pending (SessionClosed 2) in
      connectionState (state pending) = connecting
      /\ length (awaitingMicrophone pending) = 1%nat
      /\ connectionState (state closed) = idle
      /\ length (awaitingMicrophone closed) = 1%nat
      /\ length (awaitingMicrophone (step decodeAudioData closed Click)) = 2%nat)
  /\ (let w := run decodeAudioData (initialWorld []) raceEvents in
      live w 8 /\ live w 11 /\ ~ atMostOneSession w).
Proof.
  split; [|split; [|split; [|split; [|split]]]].
  - intros w H. apply startConversation_noop. cbn. unfold mayStart.
    destruct H as [-> | ->]; intros [H|[H|H]]; discriminate H.
  - intros w H. destruct (decide (mayStart (connectionState (state w)))) as [Hm|Hm];
      [exact Hm|]. elim H. apply startConversation_noop. exact Hm.
  - intros w H. apply startConversation_view. exact H.
  - intros transcript events H. apply settled_atMostOneSession.
    apply undisturbed_settled; [apply initial_settled | exact H].
  - cbv zeta. repeat split; vm_compute; reflexivity.
  - cbv zeta.
    assert (H8 : live (run decodeAudioData (initialWorld []) raceEvents) 8)
      by (eexists; vm_compute; reflexivity).
    assert (H11 : live (run decodeAudioData (initialWorld []) raceEvents) 11)
      by (eexists; vm_compute; reflexivity).
    split; [exact H8|]. split; [exact H11|].
    intros H. specialize (H 8 11 H8 H11). discriminate H.
Qed.

End Handler.

(** * The properties at sample inputs *)

Lemma mixedMessages_steady : Forall (steady sampleDecoder) mixedMessages.
Proof.
  repeat constructor; intros _; eexists; reflexivity.
Qed.

Lemma restartEvents_no_message : Forall (fun e => isMessage e = false) restartEvents.
Proof. repeat constructor. Qed.

(** C1 at two units with a transcript fragment between them, and at the
    conversation after. The second unit arrives at clock 7 while the
    first still plays until 11, so it is started at 11, and the cursor
    moves to 23. The conversation is stopped and the next one started;
    its first unit meets clock 0 of the new output context and is
    started at 23, the cursor of the conversation before. *)
Lemma units_play_back_to_back_witness :
  scheduledStart 7 heardWorld = Some 11
  /\ nextStartTimeRef (refs heardWorld) = 23
  /\ outputAudioContextRef (refs (run sampleDecoder heardWorld restartEvents))
     = Some 9
  /\ scheduledStart 14
       (step sampleDecoder (run sampleDecoder heardWorld restartEvents)
          (SessionMessage 10 0 (audioMessage chunk16 false))) = Some 23.
Proof.
  pose proof (units_play_back_to_back sampleDecoder (render (initialWorld []))
                connectedWorld mixedMessages 1 eq_refl mixedMessages_steady) as H.
  destruct H as (Hunit & _ & _ & Hnext).
  specialize (Hunit 0%nat 5 (audioMessage chunk16 false) 6 eq_refl
                (ex_intro _ chunk16 (conj eq_refl (conj eq_refl eq_refl)))).
  cbv zeta in Hunit. destruct Hunit as (_ & _ & _ & _ & _ & _ & _ & Hgap).
  specialize (Hgap 1%nat 7 (audioMessage chunk32 false) 12 eq_refl
                (ex_intro _ chunk32 (conj eq_refl (conj eq_refl eq_refl)))).
  specialize (Hnext restartEvents restartEvents_no_message).
  cbv zeta in Hnext. destruct Hnext as (Hleft & _ & Hfirst).
  unfold heardWorld.
  set (heard := onmessages sampleDecoder (render (initialWorld [])) mixedMessages
                  connectedWorld) in *.
  assert (Hctx : outputAudioContextRef
                   (refs (run sampleDecoder heard restartEvents)) = Some 9)
    by (vm_compute; reflexivity).
  split; [|split; [exact Hleft|split; [exact Hctx|]]].
  - apply Hgap. intros i mi Hi Hmi.
    assert (i = 1%nat) as -> by lia. injection Hmi as <-. reflexivity.
  - assert (Hsession : exists env',
              closureOf 10 (run sampleDecoder heard restartEvents) = Some env')
      by (eexists; vm_compute; reflexivity).
    destruct Hsession as [env' Hsession].
    pose proof (Hfirst 10 env' 0 (audioMessage chunk16 false) 9 6 Hsession Hctx
                  (ex_intro _ chunk16 (conj eq_refl (conj eq_refl eq_refl)))) as H.
    assert (Hid : nextId (browser (run sampleDecoder heard restartEvents)) = 14)
      by (vm_compute; reflexivity).
    assert (Hcursor : N.max (nextStartTimeRef (refs heard)) 0 = 23)
      by (vm_compute; reflexivity).
    rewrite Hid, Hcursor in H. exact H.
Defined.

(** C2 at two interruptions that meet two scheduled units. The handler
    of the first runs through: both units are stopped, and the unit after
    it is started at its clock reading 30. The second comes in a message
    whose model turn has no parts: the handler ends at line 113, both
    units stay scheduled and unstopped, and the cursor stays at 23. *)
Lemma interruption_clears_playback_witness :
  (sourcesRef (refs (onmessage sampleDecoder (render (initialWorld [])) 9
                       interruption playingWorld)) = ∅
   /\ nextStartTimeRef
        (refs (onmessage sampleDecoder (render (initialWorld [])) 9
                 interruption playingWorld)) = 0
   /\ forceStopped 6
        (onmessage sampleDecoder (render (initialWorld [])) 9
           interruption playingWorld)
   /\ scheduledStart 8
        (onmessage sampleDecoder (render (initialWorld [])) 30
           (audioMessage chunk16 false)
           (onmessage sampleDecoder (render (initialWorld [])) 9
              interruption playingWorld)) = Some 30)
  /\ interrupted interruptionWithoutParts = true
  /\ onmessage sampleDecoder (render (initialWorld [])) 9
       interruptionWithoutParts playingWorld = playingWorld
  /\ 6 ∈ sourcesRef (refs playingWorld)
  /\ objects (browser playingWorld) !! 6 = Some (AudioBufferSourceNode 5 6 false)
  /\ nextStartTimeRef (refs playingWorld) = 23.
Proof.
  split.
  - pose proof (interruption_clears_playback sampleDecoder
                  (render (initialWorld [])) 9 interruption playingWorld
                  eq_refl) as H.
    cbv zeta in H. destruct H as (H & _).
    destruct (H (ex_intro _ playingWorld eq_refl)) as (H1 & H2 & H3 & H4).
    split; [exact H1|]. split; [exact H2|]. split.
    + apply (H3 6 5 6 false); [vm_compute; reflexivity | reflexivity].
    + apply (H4 (render (initialWorld [])) [] (render (initialWorld [])) 30
               (audioMessage chunk16 false) 6 1).
      * constructor.
      * reflexivity.
      * exists chunk16. repeat split.
  - pose proof (interruption_clears_playback sampleDecoder
                  (render (initialWorld [])) 9 interruptionWithoutParts
                  playingWorld eq_refl) as H.
    cbv zeta in H. destruct H as (_ & H & _).
    split; [reflexivity|]. split; [exact (H eq_refl)|].
    split; [vm_compute; reflexivity|]. split; reflexivity.
Defined.

(** C10 at a unit that comes with an interruption while the cursor, 23,
    is ahead of the clock, 9: it is started at 23 and stopped. *)
Lemma unit_with_interruption_witness :
  objects (browser (onmessage sampleDecoder (render (initialWorld [])) 9
                      (audioMessage chunk16 true) playingWorld)) !! 8
  = Some (AudioBufferSourceNode 23 6 true)
  /\ sourcesRef (refs (onmessage sampleDecoder (render (initialWorld [])) 9
                         (audioMessage chunk16 true) playingWorld)) = ∅
  /\ nextStartTimeRef
       (refs (onmessage sampleDecoder (render (initialWorld [])) 9
                (audioMessage chunk16 true) playingWorld)) = 0.
Proof.
  pose proof (unit_with_interruption sampleDecoder (render (initialWorld [])) 9
                (audioMessage chunk16 true) playingWorld 1 6 eq_refl
                (ex_intro _ chunk16 (conj eq_refl (conj eq_refl eq_refl)))
                eq_refl) as H.
  cbv zeta in H. destruct H as (_ & H1 & H2 & H3 & _).
  split; [exact H1|]. split; [exact H2 | exact H3].
Defined.

(** C10 as stated fails: with the cursor behind the clock, as at the first
    unit of a conversation, the unit that comes with the interruption is
    started at the clock reading. *)
Lemma unit_with_interruption_at_now :
  carriesUnit sampleDecoder (audioMessage chunk16 true) 6
  /\ interrupted (audioMessage chunk16 true) = true
  /\ nextStartTimeRef (refs connectedWorld) = 0
  /\ nextId (browser connectedWorld) = 6
  /\ scheduledStart 6
       (step sampleDecoder connectedWorld
          (SessionMessage 2 5 (audioMessage chunk16 true))) = Some 5.
Proof.
  split; [exists chunk16; repeat split|].
  repeat split; vm_compute; reflexivity.
Qed.

(** C3 as stated fails: after a stop from state [connected] both
    audio-context refs still hold their contexts. *)
Lemma stop_keeps_context_handles :
  connectionState (state connectedWorld) = connected
  /\ inputAudioContextRef (refs (stopConversation connectedWorld)) = Some 3
  /\ outputAudioContextRef (refs (stopConversation connectedWorld)) = Some 1
  /\ ~ retainsNoHandle (stopConversation connectedWorld).
Proof.
  split; [vm_compute; reflexivity|].
  split; [vm_compute; reflexivity|].
  split; [vm_compute; reflexivity|].
  intros (_ & _ & _ & H & _). vm_compute in H. discriminate H.
Qed.

(** C5, what the code does. A fragment that came in an earlier message is
    in the accumulator but not in the closure the handler reads, so the
    turn-complete message that follows appends nothing; a turn is
    appended when its text comes in the turn-complete message itself, and
    then behind the history of the render the conversation was started
    from, so a second turn takes the place of the first. *)
Theorem turn_complete_misses_the_transcript :
  currentInputTranscription
    (state (run sampleDecoder connectedWorld
              [SessionMessage 2 0 (textMessage (Some "hello") None false)]))
  = "hello"
  /\ history
       (run sampleDecoder connectedWorld
          [SessionMessage 2 0 (textMessage (Some "hello") None false);
           SessionMessage 2 0 (textMessage None None true)])
     = []
  /\ history
       (run sampleDecoder connectedWorld
          [SessionMessage 2 0 (textMessage (Some "hello") None true)])
     = [{| user := "hello"; model := "" |}]
  /\ history
       (run sampleDecoder connectedWorld
          [SessionMessage 2 0 (textMessage (Some "hello") None true);
           SessionMessage 2 0 (textMessage (Some "bye") None true)])
     = [{| user := "bye"; model := "" |}].
Proof. repeat split; vm_compute; reflexivity. Qed.


Lemma calmEvents_undisturbed :
  undisturbed sampleDecoder (initialWorld []) calmEvents.
Proof.
  cbn [undisturbed calmEvents].
  repeat split; try (intros _; vm_compute; reflexivity);
    intros H; exfalso; apply H; vm_compute; reflexivity.
Qed.

(** C8 at a conversation that is stopped and started again after the old
    session has closed. *)
Lemma single_session_witness :
  atMostOneSession (run sampleDecoder (initialWorld []) calmEvents).
Proof.
  exact (proj1 (proj2 (proj2 (proj2
           (start_guard_and_single_session sampleDecoder))))
           [] calmEvents calmEvents_undisturbed).
Defined.

(** * The view, the parent and the resources *)

(** ** The view *)

Lemma whenTruthy_None s : whenTruthy s = None <-> s = "".
Proof. destruct s; cbn; split; congruence. Qed.


(** X1. The button says what a click does. It reads Stop Conversation
    exactly in state [connected], and then a click is [stopConversation];
    it reads Connecting... exactly in state [connecting], and then a click
    changes nothing at all, so a start that is under way cannot be called
    off with the button; in the three other states it reads Start
    Conversation, and a click goes to state [connecting], clears the error
    message and both interim transcripts and waits for the microphone,
    with refs and browser objects as they were. *)
Theorem button_tells_what_the_click_does w :
  let content := getButtonContent (render w) in
  (label content = " Stop Conversation" \/ label content = " Connecting..."
   \/ label content = " Start Conversation")
  /\ (label content = " Stop Conversation" <-> connectionState (state w) = connected)
  /\ (label content = " Connecting..." <-> connectionState (state w) = connecting)
  /\ (label content = " Start Conversation" <-> mayStart (connectionState (state w)))
  /\ (label content = " Stop Conversation" -> onClick w = stopConversation w)
  /\ (label content = " Connecting..." -> onClick w = w)
  /\ (label content = " Start Conversation" ->
        connectionState (state (onClick w)) = connecting
        /\ voiceStatus (state (onClick w)) = Connecting
        /\ errorText (state (onClick w)) = None
        /\ currentInputTranscription (state (onClick w)) = ""
        /\ currentOutputTranscription (state (onClick w)) = ""
        /\ awaitingMicrophone (onClick w) = (awaitingMicrophone w ++ [render w])%list
        /\ sameResources (onClick w) w).
Proof.
  cbv zeta. unfold getButtonContent, onClick, startConversation, mayStart. cbn.
  destruct (connectionState (state w)) eqn:E; cbn;
    repeat split; try discriminate; try reflexivity; auto;
    try (intros [H|[H|H]]; discriminate H).
Qed.

(** X2. However a teardown is set off (the button, an error or the close
    of the session, the unmounting), the component then shows the Start
    Conversation button with status Idle and no listening ping; the turns
    of the transcript and the interim lines stay on display as they were.
    The error box is untouched by a stop and by a close, and holds the
    connection-error sentence after an error. *)
Theorem view_after_teardown w :
  (forall after,
      after = stopConversation w \/ after = onerror w \/ after = onclose w
      \/ after = cleanup w ->
      buttonContent (view after)
        = {| glyph := IconGlyph "mic"; label := " Start Conversation" |}
      /\ statusText (view after) = Idle
      /\ pingShown (view after) = false
      /\ listeningHint (view after) = false
      /\ startHint (view after) = bool_decide (length (history w) = 0%nat)
      /\ turnViews (view after) = turnViews (view w)
      /\ interimYou (view after) = interimYou (view w)
      /\ interimAi (view after) = interimAi (view w))
  /\ errorBox (view (stopConversation w)) = errorBox (view w)
  /\ errorBox (view (onclose w)) = errorBox (view w)
  /\ errorBox (view (onerror w)) = Some connectionErrorMessage.
Proof.
  assert (Hview : forall v,
            currentInputTranscription (state v) = currentInputTranscription (state w) ->
            currentOutputTranscription (state v) = currentOutputTranscription (state w) ->
            history v = history w ->
            let after := stopConversation v in
            buttonContent (view after)
              = {| glyph := IconGlyph "mic"; label := " Start Conversation" |}
            /\ statusText (view after) = Idle
            /\ pingShown (view after) = false
            /\ listeningHint (view after) = false
            /\ startHint (view after) = bool_decide (length (history w) = 0%nat)
            /\ turnViews (view after) = turnViews (view w)
            /\ interimYou (view after) = interimYou (view w)
            /\ interimAi (view after) = interimAi (view w)).
  { intros v Hi Ho Hh. cbv zeta.
    destruct (stop_effect v) as (Hs & _ & _ & _ & Hh' & _).
    unfold view, getButtonContent, render. rewrite Hs, Hh', Hh. cbn.
    rewrite Hi, Ho. repeat split. }
  split; [|split; [|split]].
  - intros after [-> | [-> | [-> | ->]]].
    + apply Hview; reflexivity.
    + unfold onerror. apply Hview; reflexivity.
    + unfold onclose. apply Hview; reflexivity.
    + unfold cleanup. apply Hview; reflexivity.
  - destruct (stop_effect w) as (Hs & _). unfold view. rewrite Hs. reflexivity.
  - unfold onclose.
    destruct (stop_effect (setVoiceStatus Idle (setConnectionState closed w)))
      as (Hs & _).
    unfold view. rewrite Hs. reflexivity.
  - unfold onerror.
    destruct (stop_effect
                (setVoiceStatus Idle
                   (setConnectionState error
                      (setError (Some connectionErrorMessage) w)))) as (Hs & _).
    unfold view. rewrite Hs. reflexivity.
Qed.

(** ** The title of a voice chat *)

Lemma substring_length n s :
  String.length (String.substring 0 n s) = Nat.min n (String.length s).
Proof.
  revert s; induction n as [|n IH]; intros s.
  - destruct s; reflexivity.
  - destruct s as [|c s]; [reflexivity|]. cbn. rewrite IH. reflexivity.
Qed.

Lemma substring_prefix n s : String.prefix (String.substring 0 n s) s = true.
Proof.
  revert s; induction n as [|n IH]; intros s.
  - destruct s; reflexivity.
  - destruct s as [|c s]; [reflexivity|]. cbn.
    destruct (ascii_dec c c) as [_|Hne]; [apply IH | elim Hne; reflexivity].
Qed.

Lemma substring_short n s :
  (String.length s <= n)%nat -> String.substring 0 n s = s.
Proof.
  revert s; induction n as [|n IH]; intros s H.
  - destruct s; [reflexivity | cbn in H; lia].
  - destruct s as [|c s]; [reflexivity|]. cbn in *. rewrite IH by lia. reflexivity.
Qed.

Lemma hasInk_truthy s : JsString.hasInk s = true -> JsString.truthy s = true.
Proof. destruct s; [discriminate | reflexivity]. Qed.

(** X3. What the parent writes when the component reports a transcript.
    Nothing is written without a signed-in user or without an active voice
    chat. Otherwise the transcript list is written as given, and a title
    with it exactly when the list has one turn whose user text is not
    empty: the title is then the first 40 characters of that text (all of
    it when it is no longer). So when the component reports the turn that
    completes, the chat is given a title if the conversation was started
    on an empty transcript and the user text is not empty, and never if it
    was started on a transcript that had turns. *)
Theorem voice_chat_title uid chatId newTranscripts :
  handleUpdateVoiceChat None chatId newTranscripts = None
  /\ onHistoryUpdate (Some uid) None newTranscripts = None
  /\ onHistoryUpdate None (Some chatId) newTranscripts = None
  /\ (chatId <> "" ->
        onHistoryUpdate (Some uid) (Some chatId) newTranscripts
        = handleUpdateVoiceChat (Some uid) chatId newTranscripts)
  /\ (exists path update,
        handleUpdateVoiceChat (Some uid) chatId newTranscripts = Some (path, update)
        /\ transcripts update = newTranscripts
        /\ (forall text,
              title update = Some text <->
              exists turn, newTranscripts = [turn] /\ user turn <> ""
                           /\ text = String.substring 0 40 (user turn))
        /\ (forall text,
              title update = Some text ->
              exists turn, newTranscripts = [turn]
                /\ String.prefix text (user turn) = true
                /\ String.length text = Nat.min 40 (String.length (user turn))
                /\ ((String.length (user turn) <= 40)%nat -> text = user turn)))
  /\ (forall env m w,
        turnComplete m = true ->
        let fullInput :=
          cl_currentInputTranscription env +:+ default "" (inputTranscription m) in
        JsString.hasInk fullInput = true ->
        exists path update,
          handleUpdateVoiceChat (Some uid) chatId
            (history (onmessage_transcript env m w)) = Some (path, update)
          /\ title update
             = match cl_history env with
               | [] => Some (String.substring 0 40 fullInput)
               | _ => None
               end).
Proof.
  split; [reflexivity|]. split; [reflexivity|].
  split; [cbn; destruct (JsString.truthy chatId); reflexivity|].
  split; [intros H; destruct chatId; [elim H|]; reflexivity|].
  split.
  - eexists _, _. split; [reflexivity|]. cbn. split; [reflexivity|].
    assert (Hiff : forall text,
              match newTranscripts with
              | [turn] =>
                  if JsString.truthy (user turn)
                  then Some (String.substring 0 40 (user turn)) else None
              | _ => None
              end = Some text <->
              exists turn, newTranscripts = [turn] /\ user turn <> ""
                           /\ text = String.substring 0 40 (user turn)).
    { intros text. destruct newTranscripts as [|turn [|turn' rest]].
      - split; [discriminate|]. intros (t & H & _). discriminate H.
      - destruct (user turn) eqn:E; cbn.
        + split; [discriminate|]. intros (t & [= <-] & H & _). elim H. exact E.
        + split.
          * intros [= <-]. exists turn. rewrite E. repeat split. discriminate.
          * intros (t & [= <-] & _ & ->). rewrite E. reflexivity.
      - split; [discriminate|]. intros (t & H & _). discriminate H. }
    split; [exact Hiff|].
    intros text H. apply Hiff in H as (turn & -> & _ & ->).
    exists turn. split; [reflexivity|].
    split; [apply substring_prefix|].
    split; [apply substring_length | apply substring_short].
  - intros env m w Ht fullInput Hink.
    destruct (turnComplete_effect env m w Ht) as (Hh & _). cbv zeta in Hh.
    fold fullInput in Hh. rewrite Hink in Hh. cbn in Hh.
    eexists _, _. split; [reflexivity|]. cbn. rewrite Hh.
    pose proof (hasInk_truthy _ Hink) as Htr.
    destruct (cl_history env) as [|t1 rest]; cbn.
    + rewrite Htr. reflexivity.
    + destruct rest; reflexivity.
Qed.

(** ** A completed turn on display *)


Section Behaviour.

Variable decodeAudioData : string -> option N.

(** ** A failed start on display *)

Lemma errorMessage_empty err :
  errorMessage err = ""
  <-> exists name, err = ErrorObject name "" /\ isPermissionDenied name "" = false.
Proof.
  destruct err as [name message|]; cbn.
  - destruct (isPermissionDenied name message) eqn:E.
    + split; [discriminate|]. intros (n & [= -> ->] & H). congruence.
    + split.
      * intros ->. exists name. split; [reflexivity | exact E].
      * intros (n & [= -> ->] & _). reflexivity.
  - split; [discriminate|]. intros (n & H & _). discriminate H.
Qed.

(** X5. Whatever step of a start fails, the component then shows the
    Start Conversation button with status Idle, and in the error box the
    message of what was thrown, when that message is not empty. The box
    stays away exactly when what was thrown is an [Error] with an empty
    message that is not taken for a denied permission: the state is
    [error] then with nothing said. *)
Theorem failed_start_on_display w call env outcome err :
  awaitingMicrophone w !! call = Some env ->
  failureOf outcome = Some err ->
  let w' := step decodeAudioData w (MicrophoneSettles call outcome) in
  connectionState (state w') = error
  /\ errorBox (view w') = whenTruthy (errorMessage err)
  /\ buttonContent (view w')
     = {| glyph := IconGlyph "mic"; label := " Start Conversation" |}
  /\ statusText (view w') = Idle
  /\ pingShown (view w') = false
  /\ (errorBox (view w') = None
      <-> exists name, err = ErrorObject name ""
                       /\ isPermissionDenied name "" = false).
Proof.
  intros Hcall Hfail. cbv zeta. cbn [step]. rewrite Hcall.
  assert (Hbox : forall v,
            errorBox (view (catchStartFailure err v)) = whenTruthy (errorMessage err))
    by reflexivity.
  destruct outcome; cbn in Hfail; try discriminate Hfail; injection Hfail as ->;
    cbn [startConversation_resume create fst snd];
    (split; [reflexivity|]); rewrite Hbox;
    (split; [reflexivity|]); (split; [reflexivity|]); (split; [reflexivity|]);
    (split; [reflexivity|]);
    rewrite whenTruthy_None; apply errorMessage_empty.
Qed.

End Behaviour.


(** X5 at an [Error] without a message thrown by [connect]. *)
Lemma failed_start_on_display_witness :
  connectionState
    (state (step sampleDecoder waitingWorld
              (MicrophoneSettles 0 (connectThrows (ErrorObject "Error" "")))))
  = error
  /\ errorBox
       (view (step sampleDecoder waitingWorld
                (MicrophoneSettles 0 (connectThrows (ErrorObject "Error" "")))))
     = None.
Proof.
  pose proof (failed_start_on_display sampleDecoder waitingWorld 0%nat
                (render (initialWorld []))
                (connectThrows (ErrorObject "Error" "")) (ErrorObject "Error" "")
                eq_refl eq_refl) as H.
  cbv zeta in H. destruct H as (H1 & H2 & _).
  split; [exact H1 | exact H2].
Defined.

Section Messages.

Variable decodeAudioData : string -> option N.

(** ** Interim transcripts *)

Lemma append_empty_r s : s +:+ "" = s.
Proof.
  induction s as [|c s IH]; [reflexivity|].
  change (String c (s +:+ "") = String c s). f_equal. exact IH.
Qed.

Lemma append_associative a b c : (a +:+ b) +:+ c = a +:+ (b +:+ c).
Proof.
  induction a as [|x a IH]; [reflexivity|].
  change (String x ((a +:+ b) +:+ c) = String x (a +:+ (b +:+ c))).
  f_equal. exact IH.
Qed.

(** On a decodable message the audio part ends without an exception and
    leaves the transcript alone. *)
Lemma decodable_audio now m w :
  decodable decodeAudioData m ->
  exists w1,
    onmessage_audio decodeAudioData now m w = inl w1
    /\ currentInputTranscription (state w1) = currentInputTranscription (state w)
    /\ currentOutputTranscription (state w1) = currentOutputTranscription (state w)
    /\ history w1 = history w.
Proof.
  unfold decodable, onmessage_audio.
  destruct (base64AudioOf m) as [[b|]|]; [| |intros []].
  - intros Hd. destruct (outputAudioContextRef (refs w)); [|eauto].
    destruct (JsString.truthy b); [|eauto].
    destruct (Hd eq_refl) as [d ->]. cbn. eauto.
  - eauto.
Qed.

Lemma transcript_fragments env m w :
  turnComplete m = false ->
  let w' := onmessage_transcript env m w in
  currentInputTranscription (state w')
  = currentInputTranscription (state w) +:+ default "" (inputTranscription m)
  /\ currentOutputTranscription (state w')
     = currentOutputTranscription (state w) +:+ default "" (outputTranscription m)
  /\ history w' = history w.
Proof.
  intros Ht. cbv zeta. unfold onmessage_transcript. rewrite Ht.
  destruct (inputTranscription m), (outputTranscription m); cbn;
    rewrite ?append_empty_r; repeat split.
Qed.

Lemma interrupted_transcript m w :
  state (onmessage_interrupted m w) = state w
  /\ history (onmessage_interrupted m w) = history w.
Proof. unfold onmessage_interrupted. destruct (interrupted m); split; reflexivity. Qed.

(** X6. Over any run of messages that decode and complete no turn, each
    interim transcript is what it was with the fragments of the messages
    behind it, in the order of arrival, whatever else the messages carry
    (audio, an interruption); the transcript itself is not touched. *)
Theorem interim_transcript_accumulates env messages w :
  Forall (fun m => decodable decodeAudioData (snd m)
                   /\ turnComplete (snd m) = false) messages ->
  let w' := onmessages decodeAudioData env messages w in
  currentInputTranscription (state w')
  = currentInputTranscription (state w) +:+ joined (map inputFragment messages)
  /\ currentOutputTranscription (state w')
     = currentOutputTranscription (state w) +:+ joined (map outputFragment messages)
  /\ history w' = history w.
Proof.
  cbv zeta. unfold onmessages. intros Hall. revert w.
  induction Hall as [|m messages [Hd Ht] _ IH]; intros w.
  - cbn [fold_left map joined fold_right]. rewrite !append_empty_r. repeat split.
  - cbn [fold_left map joined fold_right].
    destruct (IH (onmessage decodeAudioData env (fst m) (snd m) w))
      as (Hi & Ho & Hh).
    rewrite Hi, Ho, Hh. clear IH Hi Ho Hh.
    destruct (decodable_audio (fst m) (snd m) w Hd) as (w1 & Hw1 & Hi1 & Ho1 & Hh1).
    unfold onmessage. rewrite Hw1.
    destruct (interrupted_transcript (snd m) (onmessage_transcript env (snd m) w1))
      as [Hs Hh]. rewrite Hs, Hh.
    destruct (transcript_fragments env (snd m) w1 Ht) as (Hi & Ho & Hh').
    cbv zeta in Hi, Ho, Hh'. rewrite Hi, Ho, Hh', Hi1, Ho1, Hh1.
    unfold inputFragment, outputFragment. fold (joined (map inputFragment messages)).
    fold (joined (map outputFragment messages)).
    rewrite !append_associative. repeat split.
Qed.

(** ** Exceptions in the handler *)

(** X7. When the payload of a message does not decode, the handler has
    by then set the status to Speaking and moved the cursor up to the
    clock, and ends there: no source is made, the scheduled set and the
    browser objects are as before, and what the same message carries
    besides is lost, its transcript fragments, its turn completion and
    its interruption marker. A message whose model turn has no parts
    changes nothing at all. *)
Theorem undecodable_message_is_dropped env now m w base64Audio context :
  base64AudioOf m = Some (Some base64Audio) ->
  JsString.truthy base64Audio = true ->
  outputAudioContextRef (refs w) = Some context ->
  decodeAudioData base64Audio = None ->
  let w' := onmessage decodeAudioData env now m w in
  w' = set_nextStartTimeRef (N.max (nextStartTimeRef (refs w)) now)
         (setVoiceStatus Speaking w)
  /\ voiceStatus (state w') = Speaking
  /\ nextStartTimeRef (refs w') = N.max (nextStartTimeRef (refs w)) now
  /\ sourcesRef (refs w') = sourcesRef (refs w)
  /\ browser w' = browser w
  /\ history w' = history w
  /\ currentInputTranscription (state w') = currentInputTranscription (state w)
  /\ currentOutputTranscription (state w') = currentOutputTranscription (state w)
  /\ (forall env' now' m' v,
        modelTurn m' = Some None -> onmessage decodeAudioData env' now' m' v = v).
Proof.
  intros Hb Ht Hctx Hd. cbv zeta.
  assert (H : onmessage decodeAudioData env now m w
              = set_nextStartTimeRef (N.max (nextStartTimeRef (refs w)) now)
                  (setVoiceStatus Speaking w)).
  { unfold onmessage, onmessage_audio. rewrite Hb, Hctx, Ht. cbn. rewrite Hd.
    reflexivity. }
  rewrite H. repeat split.
  intros env' now' m' v Hm. unfold onmessage, onmessage_audio, base64AudioOf.
  rewrite Hm. reflexivity.
Qed.

End Messages.

Lemma sample_messages_decodable :
  Forall (fun m => decodable sampleDecoder (snd m) /\ turnComplete (snd m) = false)
    [(0, textMessage (Some "hel") None false);
     (1, audioMessage chunk16 true);
     (2, textMessage (Some "lo") (Some "hi") false)].
Proof.
  repeat constructor. intros _. eexists. reflexivity.
Qed.

(** X6 at three messages, the second with audio and an interruption. *)
Lemma interim_transcript_accumulates_witness :
  currentInputTranscription
    (state (onmessages sampleDecoder (render (initialWorld []))
              [(0, textMessage (Some "hel") None false);
               (1, audioMessage chunk16 true);
               (2, textMessage (Some "lo") (Some "hi") false)] connectedWorld))
  = "hello".
Proof.
  exact (proj1 (interim_transcript_accumulates sampleDecoder
                  (render (initialWorld [])) _ connectedWorld
                  sample_messages_decodable)).
Defined.

(** X7 at a message that brings an undecodable payload with an
    interruption while two units are scheduled: they stay scheduled. *)
Lemma undecodable_message_is_dropped_witness :
  sourcesRef (refs (onmessage deafDecoder (render (initialWorld [])) 9
                      (audioMessage chunk16 true) playingWorld))
  = sourcesRef (refs playingWorld)
  /\ nextStartTimeRef
       (refs (onmessage deafDecoder (render (initialWorld [])) 9
                (audioMessage chunk16 true) playingWorld)) = 23.
Proof.
  pose proof (undecodable_message_is_dropped deafDecoder
                (render (initialWorld [])) 9 (audioMessage chunk16 true)
                playingWorld chunk16 1 eq_refl eq_refl eq_refl eq_refl) as H.
  cbv zeta in H. destruct H as (_ & _ & H3 & H4 & _).
  split; [exact H4 | exact H3].
Defined.

(** ** What a message leaves alone *)

Lemma transcript_errorText env m w :
  errorText (state (onmessage_transcript env m w)) = errorText (state w).
Proof.
  unfold onmessage_transcript.
  destruct (inputTranscription m), (outputTranscription m), (turnComplete m); cbn;
    try reflexivity;
    match goal with |- context [if ?b then _ else _] => destruct b end; reflexivity.
Qed.

Lemma sources_stop_calls sources w :
  calls (browser (sources_stop sources w)) = calls (browser w).
Proof. reflexivity. Qed.

Lemma sources_stop_nextId sources w :
  nextId (browser (sources_stop sources w)) = nextId (browser w).
Proof. reflexivity. Qed.

Section Frame.

Variable decodeAudioData : string -> option N.

Lemma audio_frame now m w :
  let w1 := match onmessage_audio decodeAudioData now m w with
            | inl x | inr x => x end in
  (connectionState (state w1) = connectionState (state w)
   /\ errorText (state w1) = errorText (state w)
   /\ awaitingMicrophone w1 = awaitingMicrophone w)
  /\ (sessionPromiseRef (refs w1) = sessionPromiseRef (refs w)
      /\ streamRef (refs w1) = streamRef (refs w)
      /\ inputAudioContextRef (refs w1) = inputAudioContextRef (refs w)
      /\ outputAudioContextRef (refs w1) = outputAudioContextRef (refs w)
      /\ scriptProcessorRef (refs w1) = scriptProcessorRef (refs w)
      /\ mediaStreamSourceRef (refs w1) = mediaStreamSourceRef (refs w))
  /\ calls (browser w1) = calls (browser w)
  /\ nextId (browser w) <= nextId (browser w1)
  /\ forall id, id <> nextId (browser w) ->
       objects (browser w1) !! id = objects (browser w) !! id.
Proof.
  unfold onmessage_audio.
  destruct (base64AudioOf m) as [[b|]|]; try (repeat split; auto; lia).
  destruct (outputAudioContextRef (refs w)) eqn:Hctx; try (repeat split; auto; lia).
  destruct (JsString.truthy b); try (repeat split; auto; lia).
  destruct (decodeAudioData b); cbn; try (repeat split; auto; lia).
  repeat split; auto; try lia.
  intros id Hne. rewrite lookup_insert_ne by congruence. reflexivity.
Qed.

(** What a message does not touch: state other than status and interim
    transcripts, the six resource refs, the calls, and every object that
    is no playback source. *)
Lemma onmessage_frame env now m w :
  let w' := onmessage decodeAudioData env now m w in
  (connectionState (state w') = connectionState (state w)
   /\ errorText (state w') = errorText (state w)
   /\ awaitingMicrophone w' = awaitingMicrophone w)
  /\ (sessionPromiseRef (refs w') = sessionPromiseRef (refs w)
      /\ streamRef (refs w') = streamRef (refs w)
      /\ inputAudioContextRef (refs w') = inputAudioContextRef (refs w)
      /\ outputAudioContextRef (refs w') = outputAudioContextRef (refs w)
      /\ scriptProcessorRef (refs w') = scriptProcessorRef (refs w)
      /\ mediaStreamSourceRef (refs w') = mediaStreamSourceRef (refs w))
  /\ calls (browser w') = calls (browser w)
  /\ nextId (browser w) <= nextId (browser w')
  /\ forall id o, id <> nextId (browser w) ->
       objects (browser w) !! id = Some o ->
       objects (browser w') !! id = Some o
       \/ objects (browser w') !! id = Some (stopSource o).
Proof.
  cbv zeta. unfold onmessage.
  pose proof (audio_frame now m w) as H. cbv zeta in H.
  destruct (onmessage_audio decodeAudioData now m w) as [w1|w1].
  - destruct H as ((Hs & He & Ha) & Hrefs & Hc & Hn & Ho).
    destruct (transcript_connectionState env m w1) as [Ts Ta].
    pose proof (transcript_errorText env m w1) as Te.
    pose proof (transcript_refs env m w1) as Tr.
    pose proof (transcript_browser env m w1) as Tb.
    unfold onmessage_interrupted. destruct (interrupted m); cbn.
    + rewrite sources_stop_state, sources_stop_refs, sources_stop_awaiting,
        sources_stop_calls, sources_stop_nextId.
      rewrite Ts, Ta, Te, Tr, Tb.
      split; [repeat split; assumption|]. split; [exact Hrefs|].
      split; [exact Hc|]. split; [exact Hn|].
      intros id o Hne Hobj.
      destruct (sources_stop_lookup (sourcesRef (refs w1))
                  (onmessage_transcript env m w1) id) as [Hin Hout].
      rewrite Tb in Hin, Hout.
      destruct (decide (id ∈ sourcesRef (refs w1))) as [Hs'|Hs'].
      * right. rewrite (Hin Hs'), (Ho id Hne), Hobj. reflexivity.
      * left. rewrite (Hout Hs'), (Ho id Hne), Hobj. reflexivity.
    + rewrite Ts, Ta, Te, Tr, Tb.
      split; [repeat split; assumption|]. split; [exact Hrefs|].
      split; [exact Hc|]. split; [exact Hn|].
      intros id o Hne Hobj. left. rewrite (Ho id Hne). exact Hobj.
  - destruct H as (Hst & Hrefs & Hc & Hn & Ho).
    split; [exact Hst|]. split; [exact Hrefs|]. split; [exact Hc|].
    split; [exact Hn|].
    intros id o Hne Hobj. left. rewrite (Ho id Hne). exact Hobj.
Qed.

(** X8. A message of a session, whatever it carries, acquires and
    releases nothing but playback sources: the connection state, the
    error message and the calls waiting for the microphone are as before,
    and so are the refs to the session, the stream, the two contexts and
    the two nodes; no release call is made; and every browser object that
    is not a playback source is as it was (a playback source is as it was
    or stopped). *)
Theorem message_touches_playback_only env now m w :
  let w' := onmessage decodeAudioData env now m w in
  connectionState (state w') = connectionState (state w)
  /\ errorText (state w') = errorText (state w)
  /\ awaitingMicrophone w' = awaitingMicrophone w
  /\ sessionPromiseRef (refs w') = sessionPromiseRef (refs w)
  /\ streamRef (refs w') = streamRef (refs w)
  /\ inputAudioContextRef (refs w') = inputAudioContextRef (refs w)
  /\ outputAudioContextRef (refs w') = outputAudioContextRef (refs w)
  /\ scriptProcessorRef (refs w') = scriptProcessorRef (refs w)
  /\ mediaStreamSourceRef (refs w') = mediaStreamSourceRef (refs w)
  /\ calls (browser w') = calls (browser w)
  /\ (forall id o,
        id <> nextId (browser w) ->
        objects (browser w) !! id = Some o ->
        (forall when duration stopped,
            o <> AudioBufferSourceNode when duration stopped) ->
        objects (browser w') !! id = Some o)
  /\ (forall id when duration stopped,
        id <> nextId (browser w) ->
        objects (browser w) !! id = Some (AudioBufferSourceNode when duration stopped) ->
        exists stopped',
          objects (browser w') !! id
          = Some (AudioBufferSourceNode when duration stopped')).
Proof.
  cbv zeta.
  destruct (onmessage_frame env now m w)
    as ((H1 & H2 & H3) & (R1 & R2 & R3 & R4 & R5 & R6) & Hc & _ & Ho).
  repeat (split; [assumption|]). split.
  - intros id o Hne Hobj Hkind.
    destruct (Ho id o Hne Hobj) as [H|H]; [exact H|].
    rewrite H. destruct o; try reflexivity. elim (Hkind _ _ _ eq_refl).
  - intros id when duration stopped Hne Hobj.
    destruct (Ho id _ Hne Hobj) as [H|H]; rewrite H; eauto.
Qed.

End Frame.

(** ** Acquisition *)

(** What a start acquires when every step of it succeeds. *)
Lemma resume_connects env w :
  let w' := startConversation_resume env connectReturns w in
  let n := nextId (browser w) in
  state w' = state w
  /\ history w' = history w
  /\ awaitingMicrophone w' = awaitingMicrophone w
  /\ refs w'
     = {| sessionPromiseRef := Some (N.succ (N.succ n)); streamRef := Some n;
          inputAudioContextRef := inputAudioContextRef (refs w);
          outputAudioContextRef := Some (N.succ n);
          scriptProcessorRef := scriptProcessorRef (refs w);
          mediaStreamSourceRef := mediaStreamSourceRef (refs w);
          nextStartTimeRef := nextStartTimeRef (refs w);
          sourcesRef := sourcesRef (refs w) |}
  /\ objects (browser w')
     = <[N.succ (N.succ n) := LiveSession env false]>
         (<[N.succ n := AudioContext ctx_running 24000]>
            (<[n := MediaStream true]> (objects (browser w))))
  /\ nextId (browser w') = N.succ (N.succ (N.succ n))
  /\ calls (browser w') = calls (browser w).
Proof. repeat split. Qed.

Lemma lookup_three (objs : gmap N BrowserObject) n a b c :
  let objs' := <[N.succ (N.succ n) := c]> (<[N.succ n := b]> (<[n := a]> objs)) in
  objs' !! n = Some a
  /\ objs' !! N.succ n = Some b
  /\ objs' !! N.succ (N.succ n) = Some c
  /\ forall id, id < n -> objs' !! id = objs !! id.
Proof.
  cbv zeta. split; [|split; [|split]].
  - rewrite !lookup_insert_ne by lia. apply lookup_insert_eq.
  - rewrite lookup_insert_ne by lia. apply lookup_insert_eq.
  - apply lookup_insert_eq.
  - intros id Hid. rewrite !lookup_insert_ne by lia. reflexivity.
Qed.

(** ** Teardowns *)

(** An event that tears down runs [stopConversation] on the resources of
    the world it meets. *)
Lemma teardown_step decodeAudioData w e :
  tearsDown w e = true ->
  exists v,
    step decodeAudioData w e = stopConversation v
    /\ sameResources v w
    /\ awaitingMicrophone v = awaitingMicrophone w
    /\ history v = history w.
Proof.
  destruct e as [| call outcome | session | session now m | session | session
                 | source |]; cbn [tearsDown step]; try discriminate.
  - intros H. unfold onClick. rewrite H. exists w. repeat split.
  - intros H. apply bool_decide_eq_true in H as [env ->].
    eexists. split; [reflexivity|]. repeat split.
  - intros H. apply bool_decide_eq_true in H as [env ->].
    eexists. split; [reflexivity|]. repeat split.
  - intros _. exists w. repeat split.
Qed.

Section Starts.

Variable decodeAudioData : string -> option N.

(** X9. A teardown does not call off a start that waits for the
    microphone. Whatever sets the teardown off (a stop, an error or close
    of a session, the unmounting), the call goes on waiting, and when
    [getUserMedia] then resolves it acquires a stream, an output context
    and a session all the same: the component is in state [idle] and
    shows Start Conversation while it holds a live microphone stream and
    a live session. *)
Theorem teardown_does_not_cancel_a_start w e call env :
  awaitingMicrophone w !! call = Some env ->
  tearsDown w e = true ->
  let w1 := step decodeAudioData w e in
  let w' := step decodeAudioData w1 (MicrophoneSettles call connectReturns) in
  let n := nextId (browser w) in
  connectionState (state w1) = idle
  /\ awaitingMicrophone w1 = awaitingMicrophone w
  /\ connectionState (state w') = idle
  /\ label (getButtonContent (render w')) = " Start Conversation"
  /\ streamRef (refs w') = Some n
  /\ objects (browser w') !! n = Some (MediaStream true)
  /\ outputAudioContextRef (refs w') = Some (n + 1)
  /\ objects (browser w') !! (n + 1) = Some (AudioContext ctx_running 24000)
  /\ sessionPromiseRef (refs w') = Some (n + 2)
  /\ live w' (n + 2).
Proof.
  intros Hcall Ht. cbv zeta.
  destruct (teardown_step decodeAudioData w e Ht) as (v & -> & [Hr Hb] & Ha & _).
  destruct (stop_effect v) as (Hs & _ & _ & Hn & _ & Ha').
  rewrite Hs, Ha', Ha. cbn [connectionState].
  split; [reflexivity|]. split; [reflexivity|].
  cbn [step]. rewrite Ha', Ha, Hcall.
  set (w0 := set_awaitingMicrophone _ _).
  destruct (resume_connects env w0) as (Hs0 & _ & _ & Hr0 & Ho0 & _).
  cbv zeta in Hs0, Hr0, Ho0.
  assert (Hn0 : nextId (browser w0) = nextId (browser w))
    by (change (nextId (browser (stopConversation v)) = nextId (browser w));
        rewrite Hn, Hb; reflexivity).
  rewrite Hn0 in Hr0, Ho0.
  assert (Hst : connectionState
                  (state (startConversation_resume env connectReturns w0)) = idle)
    by (rewrite Hs0; change (connectionState (state (stopConversation v)) = idle);
        rewrite Hs; reflexivity).
  replace (nextId (browser w) + 1) with (N.succ (nextId (browser w))) by lia.
  replace (nextId (browser w) + 2) with (N.succ (N.succ (nextId (browser w)))) by lia.
  destruct (lookup_three (objects (browser w0)) (nextId (browser w))
              (MediaStream true) (AudioContext ctx_running 24000)
              (LiveSession env false)) as (L1 & L2 & L3 & _).
  unfold live. rewrite Ho0.
  split; [exact Hst|].
  split; [unfold getButtonContent, render; cbn [cl_connectionState];
          rewrite Hst; reflexivity|].
  rewrite Hr0. cbn [streamRef outputAudioContextRef sessionPromiseRef].
  split; [reflexivity|]. split; [exact L1|]. split; [reflexivity|].
  split; [exact L2|]. split; [reflexivity|]. exists env. exact L3.
Qed.

End Starts.

(** X9 at the unmounting of a component that was clicked once. *)
Lemma teardown_does_not_cancel_a_start_witness :
  connectionState
    (state (run sampleDecoder waitingWorld
              [Unmount; MicrophoneSettles 0 connectReturns])) = idle
  /\ live (run sampleDecoder waitingWorld
             [Unmount; MicrophoneSettles 0 connectReturns]) 2.
Proof.
  pose proof (teardown_does_not_cancel_a_start sampleDecoder waitingWorld Unmount
                0%nat (render (initialWorld [])) eq_refl eq_refl) as H.
  cbv zeta in H. destruct H as (_ & _ & H1 & _ & _ & _ & _ & _ & _ & H2).
  split; [exact H1 | exact H2].
Defined.


(** ** Streams that are never released *)

Lemma alterAt_misses f ref (objs : gmap N BrowserObject) id :
  ref <> Some id -> alterAt f ref objs !! id = objs !! id.
Proof.
  intros H. destruct ref as [id'|]; cbn; [|reflexivity].
  apply lookup_alter_ne. congruence.
Qed.

Lemma orphaned_same v w stream :
  sameResources v w -> orphaned w stream -> orphaned v stream.
Proof. intros [Hr Hb]. unfold orphaned. rewrite Hr, Hb. auto. Qed.

Lemma stop_orphaned w stream :
  orphaned w stream -> orphaned (stopConversation w) stream.
Proof.
  intros (Hobj & Hlt & Href).
  destruct (stop_effect w) as (_ & Hr & Ho & Hn & _).
  unfold orphaned. rewrite Hr, Ho, Hn. cbn.
  split; [|split; [exact Hlt | discriminate]].
  unfold releasedObjects.
  do 4 (apply alterAt_keeps; [reflexivity|]).
  rewrite (alterAt_misses stopTracks _ _ _ Href).
  apply alterAt_keeps; [reflexivity | exact Hobj].
Qed.

Lemma resume_orphaned env outcome w stream :
  orphaned w stream -> orphaned (startConversation_resume env outcome w) stream.
Proof.
  intros (Hobj & Hlt & Href).
  destruct outcome; unfold orphaned; cbn;
    rewrite ?lookup_insert_ne by lia;
    (split; [exact Hobj|]); (split; [lia|]);
    first [exact Href | intros [= H]; lia].
Qed.

Lemma onopen_orphaned w stream :
  orphaned w stream -> orphaned (onopen w) stream.
Proof.
  intros (Hobj & Hlt & Href). unfold onopen. cbn.
  destruct (streamRef (refs w)) as [held|] eqn:Hs; unfold orphaned; cbn;
    rewrite ?Hs; cbn;
    rewrite ?lookup_alter_ne by lia; rewrite ?lookup_insert_ne by lia;
    (split; [exact Hobj|]); (split; [lia|]); rewrite ?Hs; exact Href.
Qed.

Section Streams.

Variable decodeAudioData : string -> option N.

Lemma onmessage_orphaned env now m w stream :
  orphaned w stream -> orphaned (onmessage decodeAudioData env now m w) stream.
Proof.
  intros (Hobj & Hlt & Href).
  destruct (onmessage_frame decodeAudioData env now m w)
    as (_ & (_ & Hs & _) & _ & Hn & Ho).
  unfold orphaned. rewrite Hs. split; [|split; [lia | exact Href]].
  assert (Hne : stream <> nextId (browser w)) by lia.
  destruct (Ho stream _ Hne Hobj) as [H|H]; exact H.
Qed.

Lemma step_orphaned w e stream :
  orphaned w stream -> orphaned (step decodeAudioData w e) stream.
Proof.
  intros H.
  destruct e as [| call outcome | session | session now m | session | session
                 | source |]; cbn [step].
  - unfold onClick. destruct (bool_decide _); [apply stop_orphaned, H|].
    eapply orphaned_same; [|exact H].
    unfold startConversation.
    destruct (cl_connectionState (render w)); split; reflexivity.
  - destruct (awaitingMicrophone w !! call); [|exact H].
    apply resume_orphaned. exact H.
  - destruct (closureOf session w); [|exact H]. apply onopen_orphaned, H.
  - destruct (closureOf session w); [|exact H]. apply onmessage_orphaned, H.
  - destruct (closureOf session w); [|exact H]. unfold onerror.
    apply stop_orphaned. exact H.
  - destruct (closureOf session w); [|exact H]. unfold onclose.
    apply stop_orphaned. exact H.
  - exact H.
  - apply stop_orphaned, H.
Qed.

(** X10. A start that fails after [getUserMedia] has resolved keeps the
    microphone. The catch block releases nothing: the stream the start
    was given is still held and its tracks are live, no release call has
    been made, and the state is [error], in which the button starts
    again rather than stops. When the next start gets its own stream,
    [streamRef] is given that one, and the first stream is left live
    with no ref holding it. *)
Theorem failed_start_keeps_the_microphone w call env outcome err :
  awaitingMicrophone w !! call = Some env ->
  failureOf outcome = Some err ->
  outcome <> getUserMediaRejects err ->
  let w' := step decodeAudioData w (MicrophoneSettles call outcome) in
  let stream := nextId (browser w) in
  connectionState (state w') = error
  /\ streamRef (refs w') = Some stream
  /\ objects (browser w') !! stream = Some (MediaStream true)
  /\ calls (browser w') = calls (browser w)
  /\ onClick w' = startConversation (render w') w'
  /\ (forall call' env' outcome',
        awaitingMicrophone (onClick w') !! call' = Some env' ->
        (forall err', outcome' <> getUserMediaRejects err') ->
        orphaned
          (step decodeAudioData (onClick w') (MicrophoneSettles call' outcome'))
          stream).
Proof.
  intros Hcall Hfail Hpast. cbv zeta. cbn [step]. rewrite Hcall.
  set (w0 := set_awaitingMicrophone (delete call (awaitingMicrophone w)) w).
  assert (Hheld : let w' := startConversation_resume env outcome w0 in
            connectionState (state w') = error
            /\ streamRef (refs w') = Some (nextId (browser w))
            /\ objects (browser w') !! nextId (browser w) = Some (MediaStream true)
            /\ calls (browser w') = calls (browser w)
            /\ nextId (browser w) < nextId (browser w')).
  { destruct outcome; cbn in Hfail; try discriminate Hfail; injection Hfail as ->;
      [elim Hpast; reflexivity | | |]; cbn;
      rewrite ?lookup_insert_ne by lia; rewrite lookup_insert_eq;
      repeat split; lia. }
  cbv zeta in Hheld. destruct Hheld as (Hs & Hr & Ho & Hc & Hn).
  set (w' := startConversation_resume env outcome w0) in *.
  assert (Hclick : onClick w' = startConversation (render w') w').
  { unfold onClick. rewrite Hs. reflexivity. }
  repeat (split; [assumption|]).
  intros call' env' outcome' Hcall' Hpast'. cbn [step]. rewrite Hcall'.
  set (v := set_awaitingMicrophone
              (delete call' (awaitingMicrophone (onClick w'))) (onClick w')).
  assert (Hsame : sameResources v w').
  { unfold v. rewrite Hclick. unfold startConversation.
    destruct (cl_connectionState (render w')); split; reflexivity. }
  destruct Hsame as [Hr' Hb'].
  assert (Hov : objects (browser v) !! nextId (browser w) = Some (MediaStream true))
    by (rewrite Hb'; exact Ho).
  assert (Hnv : nextId (browser w) < nextId (browser v))
    by (rewrite Hb'; exact Hn).
  clearbody v.
  destruct outcome' as [err'| | | |]; [elim (Hpast' err'); reflexivity | | | |];
    unfold orphaned; cbn;
    rewrite ?lookup_insert_ne by lia;
    (split; [exact Hov|]); (split; [lia|]); intros [= H]; lia.
Qed.

(** X11. A live stream that [streamRef] does not hold is never stopped:
    whatever events follow (clicks, settlings of [getUserMedia], messages,
    errors and closes of sessions, the unmounting), its tracks stay live
    and no ref comes to hold it again. *)
Theorem orphaned_stream_stays_live w stream events :
  orphaned w stream ->
  orphaned (run decodeAudioData w events) stream.
Proof.
  unfold run. revert w. induction events as [|e events IH]; intros w H.
  - exact H.
  - cbn. apply IH. apply step_orphaned. exact H.
Qed.

End Streams.

(** X10 at a start that fails for want of an API key. *)
Lemma failed_start_keeps_the_microphone_witness :
  streamRef (refs (run sampleDecoder (initialWorld []) (take 2 retryEvents)))
  = Some 0
  /\ objects (browser (run sampleDecoder (initialWorld []) (take 2 retryEvents))) !! 0
     = Some (MediaStream true)
  /\ orphaned (run sampleDecoder (initialWorld []) retryEvents) 0.
Proof.
  pose proof (failed_start_keeps_the_microphone sampleDecoder waitingWorld 0%nat
                (render (initialWorld []))
                (GoogleGenAIThrows
                   (ErrorObject "Error"
                      "An API Key must be set when running in a browser."))
                _ eq_refl eq_refl) as H.
  cbv zeta in H. destruct H as (_ & H2 & H3 & _ & _ & H6); [discriminate|].
  split; [exact H2|]. split; [exact H3|].
  apply (H6 0%nat
           (render (step sampleDecoder waitingWorld
                      (MicrophoneSettles 0
                         (GoogleGenAIThrows
                            (ErrorObject "Error"
                               "An API Key must be set when running in a browser.")))))
           connectReturns eq_refl).
  intros err'. discriminate.
Defined.

Lemma retryEvents_orphan : orphaned (run sampleDecoder (initialWorld []) retryEvents) 0.
Proof.
  split; [vm_compute; reflexivity|]. split; [reflexivity|].
  intros H. vm_compute in H. discriminate H.
Qed.

(** X11 at that stream: the second start goes through, its conversation
    is stopped and the component unmounted, and the first stream is live
    still. *)
Lemma orphaned_stream_stays_live_witness :
  objects (browser (run sampleDecoder
                      (run sampleDecoder (initialWorld []) retryEvents)
                      [SessionOpen 3; Click; Unmount])) !! 0
  = Some (MediaStream true).
Proof.
  exact (proj1 (orphaned_stream_stays_live sampleDecoder _ 0
                  [SessionOpen 3; Click; Unmount] retryEvents_orphan)).
Defined.

(** ** A start that succeeds *)

(** What [onopen] makes when a stream is held. *)
Lemma onopen_wires w stream :
  streamRef (refs w) = Some stream ->
  let w' := onopen w in
  let n := nextId (browser w) in
  state w' = state (setConnectionState connected w)
  /\ history w' = history w
  /\ awaitingMicrophone w' = awaitingMicrophone w
  /\ refs w'
     = {| sessionPromiseRef := sessionPromiseRef (refs w);
          streamRef := Some stream;
          inputAudioContextRef := Some n;
          outputAudioContextRef := outputAudioContextRef (refs w);
          scriptProcessorRef := Some (N.succ (N.succ n));
          mediaStreamSourceRef := Some (N.succ n);
          nextStartTimeRef := nextStartTimeRef (refs w);
          sourcesRef := sourcesRef (refs w) |}
  /\ objects (browser w')
     = alter connectNode (N.succ (N.succ n))
         (alter connectNode (N.succ n)
            (<[N.succ (N.succ n) := ScriptProcessorNode false]>
               (<[N.succ n := MediaStreamAudioSourceNode stream false]>
                  (<[n := AudioContext ctx_running 16000]> (objects (browser w))))))
  /\ nextId (browser w') = N.succ (N.succ (N.succ n))
  /\ calls (browser w') = calls (browser w).
Proof.
  intros Hs. cbv zeta. unfold onopen. cbn. rewrite Hs. cbn. rewrite Hs.
  repeat split.
Qed.

Section Acquisition.

Variable decodeAudioData : string -> option N.

(** X12. A start in which every step succeeds acquires six objects and
    holds each of them by its ref. From a state a start goes on from, a
    click, the resolution of [getUserMedia] and the opening of the
    session leave the component [connected], with no error message and
    with no call waiting that was not waiting before: it holds the live
    stream, an output context running at 24000 Hz, the session, whose
    callbacks close over the render of the click, an input context
    running at 16000 Hz, and the source node of the stream and the
    processor, both connected. No release call is made, and the cursor
    and the scheduled set are as they were. The status still reads
    Connecting...: [onopen] does not set it, and it stays so until the
    first message. *)
Theorem successful_start_acquires w :
  mayStart (connectionState (state w)) ->
  let n := nextId (browser w) in
  let w' := run decodeAudioData w
              [Click; MicrophoneSettles (length (awaitingMicrophone w)) connectReturns;
               SessionOpen (n + 2)] in
  connectionState (state w') = connected
  /\ voiceStatus (state w') = Connecting
  /\ errorText (state w') = None
  /\ awaitingMicrophone w' = awaitingMicrophone w
  /\ streamRef (refs w') = Some n
  /\ outputAudioContextRef (refs w') = Some (n + 1)
  /\ sessionPromiseRef (refs w') = Some (n + 2)
  /\ inputAudioContextRef (refs w') = Some (n + 3)
  /\ mediaStreamSourceRef (refs w') = Some (n + 4)
  /\ scriptProcessorRef (refs w') = Some (n + 5)
  /\ objects (browser w') !! n = Some (MediaStream true)
  /\ objects (browser w') !! (n + 1) = Some (AudioContext ctx_running 24000)
  /\ objects (browser w') !! (n + 2) = Some (LiveSession (render w) false)
  /\ objects (browser w') !! (n + 3) = Some (AudioContext ctx_running 16000)
  /\ objects (browser w') !! (n + 4) = Some (MediaStreamAudioSourceNode n true)
  /\ objects (browser w') !! (n + 5) = Some (ScriptProcessorNode true)
  /\ nextId (browser w') = n + 6
  /\ calls (browser w') = calls (browser w)
  /\ nextStartTimeRef (refs w') = nextStartTimeRef (refs w)
  /\ sourcesRef (refs w') = sourcesRef (refs w).
Proof.
  intros Hm. cbv zeta. unfold run. cbn [fold_left].
  (* the click *)
  assert (Hclick : step decodeAudioData w Click = startConversation (render w) w).
  { cbn [step]. unfold onClick.
    destruct (bool_decide_reflect (connectionState (state w) = connected))
      as [Hc|_]; [|reflexivity].
    unfold mayStart in Hm. rewrite Hc in Hm.
    destruct Hm as [H|[H|H]]; discriminate H. }
  rewrite Hclick.
  destruct (startConversation_view (render w) w Hm) as (_ & Hr1 & Hb1 & Ha1).
  assert (Hs1 : state (startConversation (render w) w)
                = {| connectionState := connecting; voiceStatus := Connecting;
                     errorText := None; currentInputTranscription := "";
                     currentOutputTranscription := "" |}).
  { unfold startConversation. cbn [render cl_connectionState].
    destruct Hm as [-> | [-> | ->]]; reflexivity. }
  set (w1 := startConversation (render w) w) in *.
  (* the microphone *)
  cbn [step]. rewrite Ha1.
  rewrite (list_lookup_middle _ [] (render w) _ eq_refl).
  replace (delete (length (awaitingMicrophone w))
             (awaitingMicrophone w ++ [render w])%list)
    with (awaitingMicrophone w)
    by (rewrite (delete_middle _ []), app_nil_r; reflexivity).
  set (w1' := set_awaitingMicrophone (awaitingMicrophone w) w1).
  destruct (resume_connects (render w) w1')
    as (Hs2 & _ & Ha2 & Hr2 & Ho2 & Hn2 & Hc2).
  cbv zeta in Hs2, Ha2, Hr2, Ho2, Hn2, Hc2.
  change (nextId (browser w1')) with (nextId (browser w1)) in *.
  change (objects (browser w1')) with (objects (browser w1)) in *.
  change (calls (browser w1')) with (calls (browser w1)) in *.
  change (refs w1') with (refs w1) in *.
  change (state w1') with (state w1) in *.
  change (awaitingMicrophone w1') with (awaitingMicrophone w) in *.
  rewrite Hb1, Hr1 in *.
  set (n := nextId (browser w)) in *.
  set (w2 := startConversation_resume (render w) connectReturns w1') in *.
  (* the session opens *)
  replace (n + 2) with (N.succ (N.succ n)) by lia.
  destruct (lookup_three (objects (browser w)) n (MediaStream true)
              (AudioContext ctx_running 24000) (LiveSession (render w) false))
    as (L0 & L1 & L2 & _).
  assert (Hcl : closureOf (N.succ (N.succ n)) w2 = Some (render w)).
  { unfold closureOf. rewrite Ho2, L2. reflexivity. }
  rewrite Hcl.
  assert (Hst : streamRef (refs w2) = Some n) by (rewrite Hr2; reflexivity).
  destruct (onopen_wires w2 n Hst) as (Hs3 & _ & Ha3 & Hr3 & Ho3 & Hn3 & Hc3).
  cbv zeta in Hs3, Ha3, Hr3, Ho3, Hn3, Hc3.
  rewrite Hs3, Ha3, Hr3, Ho3, Hn3, Hc3, Hn2, Hr2, Ho2, Hc2, Ha2.
  cbn [setConnectionState onState state connectionState voiceStatus errorText].
  rewrite Hs2, Hs1. cbn.
  replace (n + 1) with (N.succ n) by lia.
  replace (n + 3) with (N.succ (N.succ (N.succ n))) by lia.
  replace (n + 4) with (N.succ (N.succ (N.succ (N.succ n)))) by lia.
  replace (n + 5) with (N.succ (N.succ (N.succ (N.succ (N.succ n))))) by lia.
  replace (n + 6) with (N.succ (N.succ (N.succ (N.succ (N.succ (N.succ n)))))) by lia.
  repeat (split; [reflexivity|]).
  repeat split;
    repeat first
      [ rewrite lookup_alter_eq | rewrite lookup_alter_ne by lia
      | rewrite lookup_insert_eq | rewrite lookup_insert_ne by lia ];
    try reflexivity.
Qed.

End Acquisition.

(** X12 at the first start of a mounted component. *)
Lemma successful_start_acquires_witness :
  connectionState (state connectedWorld) = connected
  /\ voiceStatus (state connectedWorld) = Connecting
  /\ objects (browser connectedWorld) !! 4 = Some (MediaStreamAudioSourceNode 0 true).
Proof.
  pose proof (successful_start_acquires sampleDecoder (initialWorld [])
                (or_introl eq_refl)) as H.
  cbv zeta in H.
  destruct H as (H1 & H2 & _ & _ & _ & _ & _ & _ & _ & _ & _ & _ & _ & _ & H15 & _).
  split; [exact H1|]. split; [exact H2 | exact H15].
Defined.

(** ** What the refs hold *)

Lemma wellFormed_extend w w' :
  wellFormed w ->
  (forall id kind, kindAt w id = Some kind -> kindAt w' id = Some kind) ->
  (forall id, is_Some (objects (browser w') !! id) -> id < nextId (browser w')) ->
  refKept w w' sessionPromiseRef SessionKind ->
  refKept w w' streamRef StreamKind ->
  refKept w w' inputAudioContextRef (ContextKind 16000) ->
  refKept w w' outputAudioContextRef (ContextKind 24000) ->
  refKept w w' scriptProcessorRef ProcessorKind ->
  refKept w w' mediaStreamSourceRef StreamSourceKind ->
  (forall id, id ∈ sourcesRef (refs w') ->
     id ∈ sourcesRef (refs w) \/ kindAt w' id = Some BufferSourceKind) ->
  wellFormed w'.
Proof.
  intros (_ & W1 & W2 & W3 & W4 & W5 & W6 & W7) HK HB R1 R2 R3 R4 R5 R6 HS.
  assert (Hkept : forall ref kind,
            holdsKind w (ref (refs w)) kind -> refKept w w' ref kind ->
            holdsKind w' (ref (refs w')) kind).
  { intros ref kind Hw [Heq|Hnew]; [|exact Hnew].
    intros id Hid. apply HK, Hw. rewrite <- Heq. exact Hid. }
  split; [exact HB|].
  repeat (split; [apply Hkept; assumption|]).
  intros id Hid. destruct (HS id Hid) as [H|H]; [|exact H]. apply HK, W7, H.
Qed.

Lemma kindAt_alter f id (objs : gmap N BrowserObject) i :
  (forall o, kindOf (f o) = kindOf o) ->
  kindOf <$> alter f id objs !! i = kindOf <$> objs !! i.
Proof.
  intros Hf. destruct (decide (id = i)) as [->|Hne].
  - rewrite lookup_alter_eq. destruct (objs !! i); cbn; [rewrite Hf|]; reflexivity.
  - rewrite lookup_alter_ne by exact Hne. reflexivity.
Qed.

Lemma kindAt_alterAt f ref (objs : gmap N BrowserObject) i :
  (forall o, kindOf (f o) = kindOf o) ->
  kindOf <$> alterAt f ref objs !! i = kindOf <$> objs !! i.
Proof. intros Hf. destruct ref; cbn; [apply kindAt_alter, Hf | reflexivity]. Qed.

Lemma closeRequest_kind o : kindOf (closeRequest o) = kindOf o.
Proof. destruct o; reflexivity. Qed.

Lemma stopTracks_kind o : kindOf (stopTracks o) = kindOf o.
Proof. destruct o; reflexivity. Qed.

Lemma disconnectNode_kind o : kindOf (disconnectNode o) = kindOf o.
Proof. destruct o; reflexivity. Qed.

Lemma connectNode_kind o : kindOf (connectNode o) = kindOf o.
Proof. destruct o; reflexivity. Qed.

Lemma closeContext_kind o : kindOf (closeContext o) = kindOf o.
Proof. destruct o; reflexivity. Qed.

Lemma stopSource_kind o : kindOf (stopSource o) = kindOf o.
Proof. destruct o; reflexivity. Qed.

Lemma releasedObjects_kinds w i :
  kindOf <$> releasedObjects w !! i = kindOf <$> objects (browser w) !! i.
Proof.
  unfold releasedObjects.
  rewrite !kindAt_alterAt;
    auto using closeRequest_kind, stopTracks_kind, disconnectNode_kind,
      closeContext_kind.
Qed.

Lemma is_Some_kind (objs objs' : gmap N BrowserObject) i :
  kindOf <$> objs' !! i = kindOf <$> objs !! i ->
  is_Some (objs' !! i) -> is_Some (objs !! i).
Proof.
  intros H [o Ho]. rewrite Ho in H. destruct (objs !! i); [eauto | discriminate H].
Qed.

Lemma wellFormed_same v w :
  sameResources v w -> wellFormed w -> wellFormed v.
Proof.
  intros [Hr Hb]. unfold wellFormed, holdsKind, kindAt. rewrite Hr, Hb. auto.
Qed.

Lemma stop_wellFormed w : wellFormed w -> wellFormed (stopConversation w).
Proof.
  intros Hw. pose proof Hw as (HB & _).
  destruct (stop_effect w) as (_ & Hr & Ho & Hn & _).
  assert (HK : forall id, kindAt (stopConversation w) id = kindAt w id)
    by (intros id; unfold kindAt; rewrite Ho; apply releasedObjects_kinds).
  apply (wellFormed_extend w); [exact Hw | | | | | | | | | ];
    unfold refKept, holdsKind; rewrite ?Hr;
    cbn [sessionPromiseRef streamRef inputAudioContextRef outputAudioContextRef
         scriptProcessorRef mediaStreamSourceRef sourcesRef];
    try (left; reflexivity); try (right; intros id H; discriminate H).
  - intros id kind H. rewrite HK. exact H.
  - intros id H. rewrite Hn. apply HB.
    apply (is_Some_kind _ _ id (HK id)). exact H.
  - intros id H. left. exact H.
Qed.

(** Objects made under fresh ids. *)
Ltac fresh_objects :=
  repeat first
    [ rewrite lookup_alter_eq | rewrite lookup_alter_ne by lia
    | rewrite lookup_insert_eq | rewrite lookup_insert_ne by lia ];
  try reflexivity.

(** The world after holds what the world before held, but for the refs
    that are null now or hold an object just made. *)
Ltac extend_from w Hw :=
  apply (wellFormed_extend w); [exact Hw | | | | | | | | | ];
  unfold refKept, holdsKind, kindAt; cbn;
  try (left; reflexivity);
  try (right; intros id [= <-]; fresh_objects);
  try (intros id H; left; exact H).

Lemma insert_bound (objs : gmap N BrowserObject) n o id bound :
  (forall i, is_Some (objs !! i) -> i < bound) ->
  n < N.succ bound -> bound <= n ->
  is_Some (<[n := o]> objs !! id) -> id < N.succ n.
Proof.
  intros HB Hn Hle H. destruct (decide (n = id)) as [->|Hne]; [lia|].
  rewrite lookup_insert_ne in H by exact Hne. apply HB in H. lia.
Qed.

Lemma kept_kind (objs : gmap N BrowserObject) n o id kind bound :
  (forall i, is_Some (objs !! i) -> i < bound) -> bound <= n ->
  kindOf <$> objs !! id = Some kind ->
  kindOf <$> <[n := o]> objs !! id = Some kind.
Proof.
  intros HB Hle H. rewrite lookup_insert_ne; [exact H|].
  intros ->. destruct (objs !! id) as [o'|] eqn:E; [|discriminate H].
  assert (id < bound) by (apply HB; eauto). lia.
Qed.

Lemma resume_wellFormed env outcome w :
  wellFormed w -> wellFormed (startConversation_resume env outcome w).
Proof.
  intros Hw. pose proof Hw as (HB & _).
  set (n := nextId (browser w)).
  assert (B1 : forall i o, is_Some (<[n := o]> (objects (browser w)) !! i) ->
                 i < N.succ n).
  { intros i o. apply (insert_bound _ _ _ _ n HB); lia. }
  assert (B2 : forall i o o',
            is_Some (<[N.succ n := o']> (<[n := o]> (objects (browser w))) !! i) ->
            i < N.succ (N.succ n)).
  { intros i o o'.
    apply (insert_bound _ _ _ _ (N.succ n)); [intros j; apply B1 | lia | lia]. }
  assert (B3 : forall i o o' o'',
            is_Some (<[N.succ (N.succ n) := o'']>
                       (<[N.succ n := o']> (<[n := o]> (objects (browser w)))) !! i) ->
            i < N.succ (N.succ (N.succ n))).
  { intros i o o' o''.
    apply (insert_bound _ _ _ _ (N.succ (N.succ n)));
      [intros j; apply B2 | lia | lia]. }
  assert (K1 : forall i kind o, kindAt w i = Some kind ->
                 kindOf <$> <[n := o]> (objects (browser w)) !! i = Some kind).
  { intros i kind o. apply (kept_kind _ _ _ _ _ n HB). lia. }
  assert (K2 : forall i kind o o', kindAt w i = Some kind ->
            kindOf <$> <[N.succ n := o']> (<[n := o]> (objects (browser w))) !! i
            = Some kind).
  { intros i kind o o' H.
    apply (kept_kind _ _ _ _ _ (N.succ n)); [intros j; apply B1 | lia |].
    apply K1, H. }
  assert (K3 : forall i kind o o' o'', kindAt w i = Some kind ->
            kindOf <$> <[N.succ (N.succ n) := o'']>
                         (<[N.succ n := o']> (<[n := o]> (objects (browser w)))) !! i
            = Some kind).
  { intros i kind o o' o'' H.
    apply (kept_kind _ _ _ _ _ (N.succ (N.succ n)));
      [intros j; apply B2 | lia |]. apply K2, H. }
  destruct outcome; cbn [startConversation_resume];
    [ apply (wellFormed_same _ w); [split; reflexivity | exact Hw] | | | | ];
    extend_from w Hw;
    first [ intros id kind H; first [apply K1 | apply K2 | apply K3]; exact H
          | intros id; first [apply B1 | apply B2 | apply B3] ].
Qed.

Lemma onopen_wellFormed w : wellFormed w -> wellFormed (onopen w).
Proof.
  intros Hw. pose proof Hw as (HB & _).
  set (n := nextId (browser w)).
  assert (Hold : forall i, is_Some (objects (browser w) !! i) -> i < n) by exact HB.
  unfold onopen. cbn. destruct (streamRef (refs w)) as [stream|] eqn:Hs; cbn.
  - extend_from w Hw; rewrite ?Hs; try (left; reflexivity).
    + intros id kind H.
      rewrite !kindAt_alter by exact connectNode_kind.
      destruct (objects (browser w) !! id) as [o|] eqn:E; [|discriminate H].
      assert (id < n) by (apply Hold; eauto).
      rewrite !lookup_insert_ne by (unfold n in *; lia). rewrite E. exact H.
    + intros id H.
      apply (is_Some_kind _ _ id
               (eq_trans (kindAt_alter connectNode _ _ id connectNode_kind)
                         (kindAt_alter connectNode _ _ id connectNode_kind))) in H.
      fold n in H |- *.
      destruct (decide (id = n)) as [->|H0]; [lia|].
      destruct (decide (id = N.succ n)) as [->|H1]; [lia|].
      destruct (decide (id = N.succ (N.succ n))) as [->|H2]; [lia|].
      rewrite !lookup_insert_ne in H by congruence. apply Hold in H. lia.
  - extend_from w Hw; rewrite ?Hs; try (left; reflexivity).
    + intros id kind H. apply (kept_kind _ _ _ _ _ n Hold); [lia | exact H].
    + intros id. apply (insert_bound _ _ _ _ n Hold); lia.
Qed.

Lemma onended_wellFormed source w : wellFormed w -> wellFormed (onended source w).
Proof.
  intros Hw. pose proof Hw as (HB & _). extend_from w Hw.
  - intros id kind H. exact H.
  - exact HB.
  - intros id H. left. apply elem_of_difference in H as [H _]. exact H.
Qed.

Lemma initial_wellFormed transcript : wellFormed (initialWorld transcript).
Proof.
  unfold wellFormed, holdsKind. cbn.
  split; [intros id [o H]; rewrite lookup_empty in H; discriminate H|].
  repeat (split; [intros id H; discriminate H|]).
  intros id H. exfalso. revert H. apply not_elem_of_empty.
Qed.

Section Kinds.

Variable decodeAudioData : string -> option N.

Lemma audio_wellFormed now m w :
  wellFormed w ->
  wellFormed (match onmessage_audio decodeAudioData now m w with
              | inl x | inr x => x end).
Proof.
  intros Hw. pose proof Hw as (HB & _).
  assert (Hcursor : forall c v,
            wellFormed (set_nextStartTimeRef c (setVoiceStatus v w))).
  { intros c v. extend_from w Hw; [intros id kind H; exact H | exact HB]. }
  unfold onmessage_audio.
  destruct (base64AudioOf m) as [[b|]|]; try exact Hw.
  destruct (outputAudioContextRef (refs w)) eqn:Hctx; try exact Hw.
  destruct (JsString.truthy b); try exact Hw.
  destruct (decodeAudioData b) as [d|]; [|apply Hcursor].
  cbn. extend_from w Hw.
  - intros id kind H.
    apply (kept_kind _ _ _ _ _ (nextId (browser w)) HB); [lia | exact H].
  - intros id. apply (insert_bound _ _ _ _ (nextId (browser w)) HB); lia.
  - intros id H. apply elem_of_union in H as [H|H]; [|left; exact H].
    apply elem_of_singleton in H as ->. right.
    rewrite lookup_insert_eq. reflexivity.
Qed.

Lemma interrupted_wellFormed m w :
  wellFormed w -> wellFormed (onmessage_interrupted m w).
Proof.
  intros Hw. pose proof Hw as (HB & _).
  unfold onmessage_interrupted. destruct (interrupted m); [|exact Hw].
  assert (HK : forall id,
            kindOf <$> objects (browser (sources_stop (sourcesRef (refs w)) w)) !! id
            = kindOf <$> objects (browser w) !! id).
  { intros id. destruct (sources_stop_lookup (sourcesRef (refs w)) w id) as [Hin Hout].
    destruct (decide (id ∈ sourcesRef (refs w))) as [H|H].
    - rewrite (Hin H). destruct (objects (browser w) !! id); cbn;
        [rewrite stopSource_kind|]; reflexivity.
    - rewrite (Hout H). reflexivity. }
  apply (wellFormed_extend w); [exact Hw | | | | | | | | | ];
    unfold refKept, holdsKind, kindAt; cbn;
    rewrite ?sources_stop_refs; try (left; reflexivity).
  - intros id kind H. rewrite HK. exact H.
  - intros id H. rewrite sources_stop_nextId. apply HB.
    apply (is_Some_kind _ _ id (HK id)). exact H.
  - intros id H. exfalso. revert H. apply not_elem_of_empty.
Qed.

Lemma onmessage_wellFormed env now m w :
  wellFormed w -> wellFormed (onmessage decodeAudioData env now m w).
Proof.
  intros Hw. unfold onmessage.
  pose proof (audio_wellFormed now m w Hw) as H.
  destruct (onmessage_audio decodeAudioData now m w) as [w1|w1]; [|exact H].
  apply interrupted_wellFormed.
  apply (wellFormed_same _ w1); [|exact H].
  split; [apply transcript_refs | apply transcript_browser].
Qed.

Lemma step_wellFormed w e :
  wellFormed w -> wellFormed (step decodeAudioData w e).
Proof.
  intros Hw.
  destruct e as [| call outcome | session | session now m | session | session
                 | source |]; cbn [step].
  - unfold onClick. destruct (bool_decide _); [apply stop_wellFormed, Hw|].
    apply (wellFormed_same _ w); [|exact Hw].
    unfold startConversation.
    destruct (cl_connectionState (render w)); split; reflexivity.
  - destruct (awaitingMicrophone w !! call); [|exact Hw].
    apply resume_wellFormed.
    apply (wellFormed_same _ w); [split; reflexivity | exact Hw].
  - destruct (closureOf session w); [|exact Hw]. apply onopen_wellFormed, Hw.
  - destruct (closureOf session w); [|exact Hw]. apply onmessage_wellFormed, Hw.
  - destruct (closureOf session w); [|exact Hw]. unfold onerror.
    apply stop_wellFormed.
    apply (wellFormed_same _ w); [split; reflexivity | exact Hw].
  - destruct (closureOf session w); [|exact Hw]. unfold onclose.
    apply stop_wellFormed.
    apply (wellFormed_same _ w); [split; reflexivity | exact Hw].
  - apply onended_wellFormed, Hw.
  - apply stop_wellFormed, Hw.
Qed.

Lemma run_wellFormed w events :
  wellFormed w -> wellFormed (run decodeAudioData w events).
Proof.
  unfold run. revert w. induction events as [|e events IH]; intros w Hw;
    [exact Hw|].
  cbn. apply IH, step_wellFormed, Hw.
Qed.

(** X13. In every run from the mounting of the component, whatever the
    events, each ref holds null or an object of the type it is declared
    with: [sessionPromiseRef] a session, [streamRef] a stream,
    [mediaStreamSourceRef] a stream source node, [scriptProcessorRef] a
    processor, [sourcesRef] playback sources only, and the two context
    refs audio contexts, the input one made at 16000 Hz and the output
    one at 24000 Hz, the rate every payload is decoded at. In particular
    the test [state !== 'closed'] of a stop always meets a context. *)
Theorem refs_hold_what_they_declare transcript events :
  let w := run decodeAudioData (initialWorld transcript) events in
  wellFormed w
  /\ (forall context,
        inputAudioContextRef (refs w) = Some context ->
        exists st, objects (browser w) !! context = Some (AudioContext st 16000))
  /\ (forall context,
        outputAudioContextRef (refs w) = Some context ->
        exists st, objects (browser w) !! context = Some (AudioContext st 24000))
  /\ (forall stream,
        streamRef (refs w) = Some stream ->
        exists live, objects (browser w) !! stream = Some (MediaStream live))
  /\ (forall source,
        source ∈ sourcesRef (refs w) ->
        exists when duration stopped,
          objects (browser w) !! source
          = Some (AudioBufferSourceNode when duration stopped)).
Proof.
  cbv zeta.
  assert (Hw : wellFormed (run decodeAudioData (initialWorld transcript) events))
    by (apply run_wellFormed, initial_wellFormed).
  split; [exact Hw|].
  destruct Hw as (_ & _ & W2 & W3 & W4 & _ & _ & W7).
  unfold holdsKind, kindAt in *.
  split; [|split; [|split]].
  - intros context H. specialize (W3 context H).
    destruct (objects _ !! context) as [[]|]; try discriminate W3.
    injection W3 as ->. eauto.
  - intros context H. specialize (W4 context H).
    destruct (objects _ !! context) as [[]|]; try discriminate W4.
    injection W4 as ->. eauto.
  - intros stream H. specialize (W2 stream H).
    destruct (objects _ !! stream) as [[]|]; try discriminate W2. eauto.
  - intros source H. specialize (W7 source H).
    destruct (objects _ !! source) as [[]|]; try discriminate W7. eauto.
Qed.

End Kinds.

(** ** The end of a playback source *)

Section Ended.

Variable decodeAudioData : string -> option N.

(** X14. A unit that is scheduled and then plays to its end leaves the
    scheduled set as it was before the unit came: the ['ended'] listener
    takes out the source the message put in, and nothing else. It does
    not move the cursor, which stays at the end of the unit, and touches
    no browser object. The end of a source that is not in the set (one
    an interruption has cleared away) changes nothing. *)
Theorem ended_unit_leaves_the_set env now m w duration context :
  wellFormed w ->
  outputAudioContextRef (refs w) = Some context ->
  carriesUnit decodeAudioData m duration ->
  interrupted m = false ->
  let source := nextId (browser w) in
  let w' := onmessage decodeAudioData env now m w in
  source ∈ sourcesRef (refs w')
  /\ (source ∉ sourcesRef (refs w))
  /\ sourcesRef (refs (onended source w')) = sourcesRef (refs w)
  /\ nextStartTimeRef (refs (onended source w')) = nextStartTimeRef (refs w')
  /\ nextStartTimeRef (refs w')
     = N.max (nextStartTimeRef (refs w)) now + duration
  /\ browser (onended source w') = browser w'
  /\ (forall other,
        other ∉ sourcesRef (refs w') ->
        sourcesRef (refs (onended other w')) = sourcesRef (refs w')).
Proof.
  intros (HB & _ & _ & _ & _ & _ & _ & HS) Hctx Hunit Hi. cbv zeta.
  destruct (onmessage_unit decodeAudioData env now m w duration context Hctx Hunit)
    as (_ & _ & H).
  destruct (H Hi) as [Hset Hcur].
  assert (Hfresh : nextId (browser w) ∉ sourcesRef (refs w)).
  { intros Hin. specialize (HS _ Hin). unfold kindAt in HS.
    assert (Hsome : is_Some (objects (browser w) !! nextId (browser w))).
    { destruct (objects (browser w) !! nextId (browser w)); [eauto | discriminate HS]. }
    apply HB in Hsome. lia. }
  split; [rewrite Hset; apply elem_of_union_l, elem_of_singleton; reflexivity|].
  split; [exact Hfresh|].
  split.
  { cbn. rewrite Hset. apply set_eq. intros x.
    rewrite elem_of_difference, elem_of_union, !elem_of_singleton. split.
    - intros [[Hx|Hx] Hne]; [contradiction | exact Hx].
    - intros Hx. split; [right; exact Hx|]. intros ->. contradiction. }
  split; [reflexivity|]. split; [exact Hcur|]. split; [reflexivity|].
  intros other Hother. cbn. apply set_eq. intros x.
  rewrite elem_of_difference, elem_of_singleton. split.
  - intros [Hx _]. exact Hx.
  - intros Hx. split; [exact Hx|]. intros ->. contradiction.
Qed.

End Ended.

(** X14 at the first unit of a conversation. *)
Lemma ended_unit_leaves_the_set_witness :
  sourcesRef
    (refs (onended 6
             (onmessage sampleDecoder (render (initialWorld [])) 5
                (audioMessage chunk16 false) connectedWorld)))
  = sourcesRef (refs connectedWorld)
  /\ nextStartTimeRef
       (refs (onended 6
                (onmessage sampleDecoder (render (initialWorld [])) 5
                   (audioMessage chunk16 false) connectedWorld))) = 11.
Proof.
  pose proof (run_wellFormed sampleDecoder (initialWorld [])
                [Click; MicrophoneSettles 0 connectReturns; SessionOpen 2]
                (initial_wellFormed [])) as Hw.
  pose proof (ended_unit_leaves_the_set sampleDecoder (render (initialWorld [])) 5
                (audioMessage chunk16 false) connectedWorld 6 1 Hw eq_refl
                (ex_intro _ chunk16 (conj eq_refl (conj eq_refl eq_refl)))
                eq_refl) as H.
  cbv zeta in H. destruct H as (_ & _ & H3 & H4 & H5 & _).
  split; [exact H3 | exact (eq_trans H4 H5)].
Defined.
